(** * osmosis2geojson: the line-driven parser, embedded and verified

    The development follows [osmosis2geojson.js] (and its promise-based
    twin, which has the same examiners and differs only in the driver's
    plumbing).  The parser is a set of "examiner" functions, one per
    expected line role; each inspects a line, mutates the GeoJSON object
    under construction and returns the examiner for the next line, or
    [null] when the file is not in the expected format.

    Layout:
    - [JS]: the ECMAScript built-ins the source calls
      ([String.prototype.split] with the pattern [/  +/g] and limit 3,
      [Number.parseFloat], [Number.isNaN], [Number.prototype.toFixed]),
      over IEEE 754 binary64 values;
    - the data model of the GeoJSON object and the console;
    - the examiners, [readCoordinatePair], [ensureClosingCoordinates] and
      the line-reading driver;
    - the theorems. *)

From Stdlib Require Import ZArith List String Ascii Bool Lia.
From Stdlib Require Import SpecFloat DecimalString.
Import ListNotations.

#[local] Open Scope string_scope.
#[local] Open Scope Z_scope.

(** ** ECMAScript built-ins *)

Module JS.

(** A JavaScript Number is an IEEE 754 binary64 value.  [spec_float] has a
    single NaN, as ECMAScript has.  Strings are sequences of code units;
    the units 0..255 are modelled (every unit the parser distinguishes,
    space, [!], digits, signs and letters, is below 128). *)
Definition Number : Type := spec_float.

Definition prec : Z := 53.
Definition emax : Z := 1024.

(** [Number.isNaN] *)
Definition isNaN (x : Number) : bool :=
  match x with
  | S754_nan => true
  | _ => false
  end.

(** [Number.isFinite] *)
Definition isFinite (x : Number) : bool :=
  match x with
  | S754_zero _ | S754_finite _ _ _ => true
  | _ => false
  end.

(** The Number value of the mathematical value [m * 10^e10] ([0 <= m]),
    rounded to nearest, ties to even; a zero keeps the literal's sign. *)
Definition roundMV (neg : bool) (m e10 : Z) : Number :=
  match m with
  | Z0 => S754_zero neg
  | Zpos p =>
      if 0 <=? e10
      then binary_round prec emax neg (Z.to_pos (m * 10 ^ e10)) 0
      else
        let '(q, e, l) :=
          SFdiv_core_binary prec emax m 0 (10 ^ (- e10)) 0 in
        binary_round_aux prec emax neg q e l
  | Zneg _ => S754_nan
  end.

(** *** [String.prototype.split] with the separator [/  +/g]

    The separator matches a maximal run of two or more spaces.  The walk
    keeps the token read so far (reversed) and whether it is inside a
    separator run. *)
Definition isSpace (c : ascii) : bool := Ascii.eqb c " "%char.

Definition startsWithSpace (s : string) : bool :=
  match s with
  | String c _ => isSpace c
  | EmptyString => false
  end.

Fixpoint revApp (tok : list ascii) (acc : string) : string :=
  match tok with
  | [] => acc
  | c :: tok' => revApp tok' (String c acc)
  end.

Fixpoint splitWalk (s : string) (inSep : bool) (tok : list ascii)
  : list string :=
  match s with
  | EmptyString => [revApp tok EmptyString]
  | String c rest =>
      if inSep
      then if isSpace c
           then splitWalk rest true []
           else splitWalk rest false [c]
      else if isSpace c && startsWithSpace rest
           then revApp tok EmptyString :: splitWalk rest true []
           else splitWalk rest false (c :: tok)
  end.

(** [s.split(/  +/g, lim)]: the pieces between the separator runs, at most
    [lim] of them.  The empty string gives one empty piece. *)
Definition split (s : string) (lim : nat) : list string :=
  firstn lim (splitWalk s false []).

(** *** [Number.parseFloat] *)

(** WhiteSpace and LineTerminator code units below 256: TAB, LF, VT, FF,
    CR, SP and NBSP. *)
Definition isWhiteSpace (c : ascii) : bool :=
  let n := Z.of_nat (nat_of_ascii c) in
  ((9 <=? n) && (n <=? 13)) || (n =? 32) || (n =? 160).

Fixpoint trimStart (s : string) : string :=
  match s with
  | String c rest => if isWhiteSpace c then trimStart rest else s
  | EmptyString => EmptyString
  end.

Definition digitVal (c : ascii) : option Z :=
  let n := Z.of_nat (nat_of_ascii c) in
  if (48 <=? n) && (n <=? 57) then Some (n - 48) else None.

(** Reads a maximal run of decimal digits, continuing the value [acc];
    returns the value, the number of digits read and the rest. *)
Fixpoint readDigits (s : string) (acc : Z) (n : Z) : Z * Z * string :=
  match s with
  | String c rest =>
      match digitVal c with
      | Some d => readDigits rest (10 * acc + d) (n + 1)
      | None => (acc, n, s)
      end
  | EmptyString => (acc, n, s)
  end.

Fixpoint hasPrefix (p s : string) : bool :=
  match p, s with
  | EmptyString, _ => true
  | String a p', String b s' => Ascii.eqb a b && hasPrefix p' s'
  | String _ _, EmptyString => false
  end.

(** ExponentPart, when the text starts with one: [e] or [E], an optional
    sign and at least one digit.  Otherwise the exponent is 0 and nothing
    is consumed. *)
Definition readExponent (s : string) : Z :=
  match s with
  | String c rest =>
      if Ascii.eqb c "e"%char || Ascii.eqb c "E"%char
      then
        let '(neg, body) :=
          match rest with
          | String "-"%char r => (true, r)
          | String "+"%char r => (false, r)
          | _ => (false, rest)
          end in
        let '(v, n, _) := readDigits body 0 0 in
        if n =? 0 then 0 else if neg then - v else v
      else 0
  | EmptyString => 0
  end.

(** The longest prefix that is a StrUnsignedDecimalLiteral, as a Number;
    NaN when there is none. *)
Definition readUnsigned (neg : bool) (s : string) : Number :=
  if hasPrefix "Infinity" s then S754_infinity neg
  else
    let '(ip, ni, r1) := readDigits s 0 0 in
    match r1 with
    | String "."%char r2 =>
        let '(m, nf, r3) := readDigits r2 ip 0 in
        if (ni =? 0) && (nf =? 0) then S754_nan
        else roundMV neg m (readExponent r3 - nf)
    | _ =>
        if ni =? 0 then S754_nan
        else roundMV neg ip (readExponent r1)
    end.

Definition parseFloat (s : string) : Number :=
  match trimStart s with
  | String "-"%char r => readUnsigned true r
  | String "+"%char r => readUnsigned false r
  | t => readUnsigned false t
  end.

(** *** [Number.prototype.toFixed] *)

(** Structural equality of Numbers (the same binary64 value, zeros by sign). *)
Definition sameNumber (x y : Number) : bool :=
  match x, y with
  | S754_zero a, S754_zero b => Bool.eqb a b
  | S754_infinity a, S754_infinity b => Bool.eqb a b
  | S754_nan, S754_nan => true
  | S754_finite a m e, S754_finite b m' e' =>
      Bool.eqb a b && Pos.eqb m m' && Z.eqb e e'
  | _, _ => false
  end.

(** The decimal digits of a non-negative integer, ["0"] for zero. *)
Definition digitsOf (n : Z) : string :=
  NilZero.string_of_uint (N.to_uint (Z.to_N n)).

Fixpoint zeros (n : nat) : string :=
  match n with
  | O => EmptyString
  | S k => String "0"%char (zeros k)
  end.

(** The integer [n] for which [n / 10^f - m * 2^e] is closest to zero, the
    larger one of two. *)
Definition nearestScaled (m : positive) (e : Z) (f : nat) : Z :=
  let scaled := Zpos m * 10 ^ Z.of_nat f in
  if 0 <=? e
  then scaled * 2 ^ e
  else (2 * scaled + 2 ^ (- e)) / 2 ^ (1 - e).

(** The digits of [n] with a point before the last [f] of them, padded
    with zeros on the left to [f + 1] digits. *)
Definition fixedDigits (f : nat) (n : Z) : string :=
  let m := digitsOf n in
  if Nat.eqb f 0 then m
  else
    let k := String.length m in
    let m' := if Nat.leb k f then zeros (f + 1 - k) ++ m else m in
    let k' := String.length m' in
    substring 0 (k' - f) m' ++ "." ++ substring (k' - f) f m'.

(** [Number::toString] for a finite value of at least [10^21], which is an
    integer [X]: the shortest digit string [s] (of [k] digits) and the
    exponent [n] with [s * 10^(n-k)] rounding to the value, printed in
    exponent form.  Of several [s] of the same length the closest to the
    value is taken. *)
Definition candidates (x : Number) (X : Z) (k : Z) : list (Z * Z) :=
  let nd := Z.of_nat (String.length (digitsOf X)) in
  flat_map
    (fun n =>
       let u := 10 ^ (n - k) in
       filter
         (fun sn =>
            (10 ^ (k - 1) <=? fst sn) && (fst sn <? 10 ^ k)
            && sameNumber (roundMV false (fst sn) (n - k)) x)
         [(X / u, n); (X / u + 1, n)])
    [nd; nd + 1].

Definition distance (X k : Z) (sn : Z * Z) : Z :=
  Z.abs (fst sn * 10 ^ (snd sn - k) - X).

Definition closest (X k : Z) (cs : list (Z * Z)) : option (Z * Z) :=
  fold_left
    (fun best sn =>
       match best with
       | None => Some sn
       | Some b =>
           if distance X k sn <? distance X k b then Some sn
           else if (distance X k sn =? distance X k b) && Z.even (fst sn)
                then Some sn
                else best
       end)
    cs None.

Fixpoint shortest (x : Number) (X : Z) (k : Z) (fuel : nat)
  : option (Z * Z * Z) :=
  match fuel with
  | O => None
  | S fuel' =>
      match closest X k (candidates x X k) with
      | Some (s, n) => Some (s, n, k)
      | None => shortest x X (k + 1) fuel'
      end
  end.

Definition toStringLarge (m : positive) (e : Z) : string :=
  let X := Zpos m * 2 ^ e in
  match shortest (S754_finite false m e) X 1 17 with
  | Some (s, n, k) =>
      let d := digitsOf s in
      (if k =? 1 then d
       else substring 0 1 d ++ "." ++ substring 1 (String.length d - 1) d)
      ++ "e+" ++ digitsOf (n - 1)
  | None => EmptyString
  end.

(** [10^21 <= m * 2^e] *)
Definition atLeast1e21 (m : positive) (e : Z) : bool :=
  10 ^ 21 * 2 ^ (Z.max (- e) 0) <=? Zpos m * 2 ^ (Z.max e 0).

Definition toFixed (x : Number) (f : nat) : string :=
  match x with
  | S754_nan => "NaN"
  | S754_infinity s => if s then "-Infinity" else "Infinity"
  | S754_zero _ => fixedDigits f 0
  | S754_finite s m e =>
      (if s then "-" else "")
      ++ (if atLeast1e21 m e then toStringLarge m e
          else fixedDigits f (nearestScaled m e f))
  end.

End JS.

Import JS.

#[local] Open Scope list_scope.

(** ** Constants of the source *)

Definition PRECISION : nat := 12.
Definition END : string := "END".
Definition SUBTRACT : ascii := "!"%char.

(** ** Data model *)

(** A position is the two-element array [[lonVal, latVal]]. *)
Definition Position : Type := (Number * Number)%type.
Definition Ring : Type := list Position.

(** [gjObj.geometry]: the [type] field and the [coordinates] array.  The
    source changes the two together (in [endExaminer], nowhere else), so
    the pair is a tagged value: under [POLYGON] the array holds rings,
    under [MULTIPOLYGON] it holds polygons, each an array of rings. *)
Inductive Geometry : Type :=
| Polygon (coordinates : list Ring)
| MultiPolygon (coordinates : list (list Ring)).

(** [gjObj]: [{"type": "Feature", "geometry": ..., "properties": {}}];
    [properties.name] is absent until [fileExaminer] sets it. *)
Record GjObj : Type := mkGjObj {
  geometry : Geometry;
  properties_name : option string
}.

(** What the examiners can change: the object under construction and the
    lines written with [console.error]. *)
Record World : Type := mkWorld {
  gjObj : GjObj;
  console : list string
}.

Definition setGeometry (w : World) (g : Geometry) : World :=
  mkWorld (mkGjObj g (properties_name (gjObj w))) (console w).

Definition setName (w : World) (n : string) : World :=
  mkWorld (mkGjObj (geometry (gjObj w)) (Some n)) (console w).

Definition consoleError (msg : string) (w : World) : World :=
  mkWorld (gjObj w) (console w ++ [msg]).

(** A call either completes with a value and the world it leaves, or
    throws a [TypeError] (a property read on [undefined]). *)
Inductive Completion (A : Type) : Type :=
| Normal (a : A) (w : World)
| TypeError (w : World).
Arguments Normal {A} a w.
Arguments TypeError {A} w.

Definition M (A : Type) : Type := World -> Completion A.

Definition ret {A : Type} (a : A) : M A := fun w => Normal a w.

Definition bind {A B : Type} (m : M A) (k : A -> M B) : M B :=
  fun w =>
    match m w with
    | Normal a w' => k a w'
    | TypeError w' => TypeError w'
    end.

Notation "x <- m ;; k" := (bind m (fun x => k))
  (at level 61, m at next level, right associativity).
Notation "m ;;; k" := (bind m (fun _ => k))
  (at level 61, right associativity).

(** ** Arrays *)

(** [arr] split into everything before its last element and the last
    element, [arr[arr.length - 1]]; [None] when that is [undefined]. *)
Fixpoint unsnoc {A : Type} (arr : list A) : option (list A * A) :=
  match arr with
  | [] => None
  | x :: rest =>
      match unsnoc rest with
      | None => Some ([], x)
      | Some (front, z) => Some (x :: front, z)
      end
  end.

(** ** The parser *)

(** The four examiner functions, as values of the variable [examiner]. *)
Inductive Examiner : Type :=
| FileExaminer
| PolygonExaminer
| CoordinateExaminer
| EndExaminer.

(** The block the three examiners share:
    [if (type === MULTIPOLYGON) coordinates[coordinates.length - 1].push([]);
     else coordinates.push([]);] *)
Definition pushEmptyRing : M unit := fun w =>
  match geometry (gjObj w) with
  | MultiPolygon polys =>
      match unsnoc polys with
      | Some (front, poly) =>
          Normal tt (setGeometry w (MultiPolygon (front ++ [poly ++ [[]]])))
      | None => TypeError w
      end
  | Polygon rings => Normal tt (setGeometry w (Polygon (rings ++ [[]])))
  end.

(** Pushes [pos] onto the last ring: of the last polygon under
    [MULTIPOLYGON], of [coordinates] otherwise. *)
Definition pushPosition (pos : Position) : M unit := fun w =>
  match geometry (gjObj w) with
  | MultiPolygon polys =>
      match unsnoc polys with
      | Some (front, endPoly) =>
          match unsnoc endPoly with
          | Some (rings, ring) =>
              Normal tt (setGeometry w
                (MultiPolygon (front ++ [rings ++ [ring ++ [pos]]])))
          | None => TypeError w
          end
      | None => TypeError w
      end
  | Polygon rings =>
      match unsnoc rings with
      | Some (front, ring) =>
          Normal tt (setGeometry w (Polygon (front ++ [ring ++ [pos]])))
      | None => TypeError w
      end
  end.

(** The text of
    [console.error("readCoordinatePair: could not parse float: %s, %s", ...)]. *)
Definition couldNotParse (s1 s2 : string) : string :=
  ("readCoordinatePair: could not parse float: " ++ s1 ++ ", " ++ s2)%string.

(** [splitLine.length > 2] holds when the pieces with index 1 and 2 exist;
    the piece with index 0 is ignored. *)
Definition readCoordinatePair (fileLine : string) : M bool :=
  let splitLine := split fileLine 3 in
  match splitLine with
  | _ :: s1 :: s2 :: _ =>
      let lonVal := parseFloat s1 in
      let latVal := parseFloat s2 in
      if isNaN lonVal || isNaN latVal
      then fun w => Normal false (consoleError (couldNotParse s1 s2) w)
      else pushPosition (lonVal, latVal) ;;; ret true
  | _ => ret false
  end.

(** The test of [ensureClosingCoordinates] on the first and the last pair:
    the fixed-point texts differ in one of the two axes. *)
Definition fixedDiffer (firstPair lastPair : Position) : bool :=
  negb (String.eqb (toFixed (fst firstPair) PRECISION)
                   (toFixed (fst lastPair) PRECISION))
  || negb (String.eqb (toFixed (snd firstPair) PRECISION)
                      (toFixed (snd lastPair) PRECISION)).

(** The body of [ensureClosingCoordinates] once [ring] is bound: the
    result and the ring as the body leaves it. *)
Definition closeRing (ring : Ring) : bool * Ring :=
  match ring with
  | firstPair :: _ :: _ :: _ =>
      let lastPair := last ring firstPair in
      if fixedDiffer firstPair lastPair
      then (true, ring ++ [firstPair])
      else (true, ring)
  | _ => (false, ring)
  end.

Definition ensureClosingCoordinates : M bool := fun w =>
  match geometry (gjObj w) with
  | MultiPolygon polys =>
      match unsnoc polys with
      | Some (front, poly) =>
          match unsnoc poly with
          | Some (rings, ring) =>
              let (result, ring') := closeRing ring in
              Normal result
                (setGeometry w (MultiPolygon (front ++ [rings ++ [ring']])))
          | None => TypeError w
          end
      | None => TypeError w
      end
  | Polygon rings =>
      match unsnoc rings with
      | Some (front, ring) =>
          let (result, ring') := closeRing ring in
          Normal result (setGeometry w (Polygon (front ++ [ring'])))
      | None => TypeError w
      end
  end.

(** [if (inLine)]: a string is truthy when it is not empty. *)
Definition truthy (inLine : string) : bool :=
  match inLine with
  | EmptyString => false
  | String _ _ => true
  end.

(** [inLine[0] === SUBTRACT] *)
Definition startsWithSubtract (inLine : string) : bool :=
  match inLine with
  | String c _ => Ascii.eqb c SUBTRACT
  | EmptyString => false
  end.

Definition nullInput : string := "Null input, file not in expected format".

Definition fileExaminer (inLine : string) : M (option Examiner) :=
  if truthy inLine
  then fun w => Normal (Some PolygonExaminer) (setName w inLine)
  else fun w => Normal None (consoleError nullInput w).

Definition endExaminer (inLine : string) : M (option Examiner) :=
  if String.eqb inLine END
  then ret (Some EndExaminer)
  else
    (if startsWithSubtract inLine
     then pushEmptyRing
     else fun w =>
       match geometry (gjObj w) with
       | Polygon rings =>
           Normal tt (setGeometry w (MultiPolygon [rings; [[]]]))
       | MultiPolygon polys =>
           Normal tt (setGeometry w (MultiPolygon (polys ++ [[[]]])))
       end) ;;;
    ret (Some PolygonExaminer).

Definition polygonExaminer (inLine : string) : M (option Examiner) :=
  if String.eqb inLine END
  then ret (Some EndExaminer)
  else
    isPair <- readCoordinatePair inLine ;;
    if isPair
    then ret (Some CoordinateExaminer)
    else if truthy inLine
         then pushEmptyRing ;;; ret (Some CoordinateExaminer)
         else fun w => Normal None (consoleError nullInput w).

Definition coordinateExaminer (inLine : string) : M (option Examiner) :=
  if String.eqb inLine END
  then
    closed <- ensureClosingCoordinates ;;
    if closed
    then ret (Some EndExaminer)
    else fun w =>
      Normal None
        (consoleError
           "Polygon coordinates not valid, file not in expected format" w)
  else
    isPair <- readCoordinatePair inLine ;;
    if isPair
    then ret (Some CoordinateExaminer)
    else if truthy inLine
         then pushEmptyRing ;;; ret (Some PolygonExaminer)
         else fun w => Normal None (consoleError nullInput w).

(** [examiner(line, gjObj)] *)
Definition call (examiner : Examiner) : string -> M (option Examiner) :=
  match examiner with
  | FileExaminer => fileExaminer
  | PolygonExaminer => polygonExaminer
  | CoordinateExaminer => coordinateExaminer
  | EndExaminer => endExaminer
  end.

(** ** The driver *)

(** How [readLines] (and [asyncReadLines]) ends: the object is handed to
    the caller, the caller gets [Error("Processing terminated")], a
    [TypeError] escapes the line callback, or, with no line at all, the
    callback never runs and nothing is reported. *)
Inductive Outcome : Type :=
| Resolved (w : World)
| Rejected (w : World)
| Uncaught (w : World)
| Pending (w : World).

(** [lineReader.eachLine] over the lines of the file; [last] holds at the
    final line.  After an examiner returned [null] the caller is given the
    error, and its handler ends the process: no further line is examined
    and the object is not handed over. *)
Fixpoint eachLine (lines : list string) (examiner : Examiner) (w : World)
  : Outcome :=
  match lines with
  | [] => Pending w
  | line :: rest =>
      match call examiner line w with
      | TypeError w' => Uncaught w'
      | Normal None w' => Rejected w'
      | Normal (Some examiner') w' =>
          match rest with
          | [] => Resolved w'
          | _ :: _ => eachLine rest examiner' w'
          end
      end
  end.

Definition initialWorld : World :=
  mkWorld (mkGjObj (Polygon []) None) [].

Definition readLines (lines : list string) : Outcome :=
  eachLine lines FileExaminer initialWorld.

(** ** Notions used by the statements *)

(** The state machine alone: the examiners applied to the lines in turn,
    stopping at the first [null] or [TypeError].  Unlike [eachLine] it has
    no [last] flag: it gives the examiner awaiting the next line. *)
Fixpoint run (lines : list string) (examiner : Examiner)
  : M (option Examiner) :=
  fun w =>
    match lines with
    | [] => Normal (Some examiner) w
    | line :: rest =>
        match call examiner line w with
        | Normal (Some examiner') w' => run rest examiner' w'
        | other => other
        end
    end.

(** The ring the source binds to [ring] in [ensureClosingCoordinates] and
    pushes positions onto in [readCoordinatePair]: the last ring of the
    last polygon, or of [coordinates] under [POLYGON]. *)
Definition currentRing (g : Geometry) : option Ring :=
  match g with
  | MultiPolygon polys =>
      match unsnoc polys with
      | Some (_, poly) => option_map snd (unsnoc poly)
      | None => None
      end
  | Polygon rings => option_map snd (unsnoc rings)
  end.

(** Every ring of the geometry, in order of creation. *)
Definition allRings (g : Geometry) : list Ring :=
  match g with
  | Polygon rings => rings
  | MultiPolygon polys => List.concat polys
  end.

(** A closed ring: at least three positions, the first and the last with
    the same 12-digit fixed-point text in both axes. *)
Definition closedRing (ring : Ring) : bool :=
  match ring with
  | firstPair :: _ :: _ :: _ =>
      negb (fixedDiffer firstPair (last ring firstPair))
  | _ => false
  end.

(** A line opens a further outer-ring group when [endExaminer] receives it
    and it is neither the end marker nor a subtract line. *)
Definition opensOuterGroup (examiner : Examiner) (line : string) : bool :=
  match examiner with
  | EndExaminer => negb (String.eqb line END) && negb (startsWithSubtract line)
  | _ => false
  end.

(** The number of lines of a run that open a further outer-ring group. *)
Fixpoint outerGroupLines (lines : list string) (examiner : Examiner)
  (w : World) : nat :=
  match lines with
  | [] => 0
  | line :: rest =>
      (if opensOuterGroup examiner line then 1 else 0)
      + match call examiner line w with
        | Normal (Some examiner') w' => outerGroupLines rest examiner' w'
        | _ => 0
        end
  end%nat.

(** ** Relations and examples used by the statements *)

(** [opened g g']: [g'] is [g] with an empty ring pushed onto the current
    ring sequence. *)
Inductive opened : Geometry -> Geometry -> Prop :=
| opened_polygon rings :
    opened (Polygon rings) (Polygon (rings ++ [[]]))
| opened_multi front poly :
    opened (MultiPolygon (front ++ [poly]))
           (MultiPolygon (front ++ [poly ++ [[]]])).

(** [replaced ring ring' g g']: the current ring of [g] is [ring], and
    [g'] is [g] with [ring'] in its place. *)
Inductive replaced (ring ring' : Ring) : Geometry -> Geometry -> Prop :=
| replaced_polygon front :
    replaced ring ring' (Polygon (front ++ [ring]))
                        (Polygon (front ++ [ring']))
| replaced_multi front rings :
    replaced ring ring' (MultiPolygon (front ++ [rings ++ [ring]]))
                        (MultiPolygon (front ++ [rings ++ [ring']])).

(** The calls that return an examiner, by examiner and line. *)
Inductive transition
  : Examiner -> string -> Geometry -> Examiner -> Geometry -> Prop :=
| T_name line g :
    truthy line = true ->
    transition FileExaminer line g PolygonExaminer g
| T_fileEnd g :
    transition EndExaminer END g EndExaminer g
| T_hole line g g' :
    line <> END -> startsWithSubtract line = true -> opened g g' ->
    transition EndExaminer line g PolygonExaminer g'
| T_promote line rings :
    opensOuterGroup EndExaminer line = true ->
    transition EndExaminer line (Polygon rings)
               PolygonExaminer (MultiPolygon [rings; [[]]])
| T_polygon line polys :
    opensOuterGroup EndExaminer line = true ->
    transition EndExaminer line (MultiPolygon polys)
               PolygonExaminer (MultiPolygon (polys ++ [[[]]]))
| T_startEnd g :
    transition PolygonExaminer END g EndExaminer g
| T_startPair line pos ring g g' :
    line <> END -> replaced ring (ring ++ [pos]) g g' ->
    transition PolygonExaminer line g CoordinateExaminer g'
| T_startRing line g g' :
    line <> END -> truthy line = true -> opened g g' ->
    transition PolygonExaminer line g CoordinateExaminer g'
| T_close ring ring' g g' :
    closeRing ring = (true, ring') -> replaced ring ring' g g' ->
    transition CoordinateExaminer END g EndExaminer g'
| T_pair line pos ring g g' :
    line <> END -> replaced ring (ring ++ [pos]) g g' ->
    transition CoordinateExaminer line g CoordinateExaminer g'
| T_ring line g g' :
    line <> END -> truthy line = true -> opened g g' ->
    transition CoordinateExaminer line g PolygonExaminer g'.

(** The shape the examiners rely on: while coordinates are awaited, and
    always under [MULTIPOLYGON], there is a current ring. *)
Definition wellFormed (ex : Examiner) (g : Geometry) : Prop :=
  (ex = CoordinateExaminer \/ exists polys, g = MultiPolygon polys) ->
  exists ring, currentRing g = Some ring.

(** The rings [P] are a prefix of the geometry's rings, and a proper one
    unless [endExaminer] is next: positions only ever go to the last
    ring. *)
Definition frozen (P : list Ring) (ex : Examiner) (g : Geometry) : Prop :=
  exists t, allRings g = P ++ t /\ (ex <> EndExaminer -> t <> []).

(** Where a ring with positions can be the current ring: while
    coordinates are awaited, or, closed, once its end marker is consumed.
    Before any other line the current ring is absent or empty. *)
Definition settled (ex : Examiner) (g : Geometry) : Prop :=
  ex = CoordinateExaminer
  \/ currentRing g = None
  \/ currentRing g = Some []
  \/ (ex = EndExaminer
      /\ exists ring, currentRing g = Some ring /\ closedRing ring = true).

(** The lines of the example with their single spaces. *)
Definition exampleSingleSpaces : list string :=
  ["boundary"; "1"; " 1 0.0 0.0"; " 2 1.0 0.0"; " 3 1.0 1.0"; "END"; "END"].

(** The same lines with the three columns two spaces apart. *)
Definition exampleDoubleSpaces : list string :=
  ["boundary"; "1"; "1  0.0  0.0"; "2  1.0  0.0"; "3  1.0  1.0"; "END"; "END"].

(** The Numbers [0] and [1] (that is, [2^52 * 2^-52]). *)
Definition zero : Number := S754_zero false.
Definition one : Number := S754_finite false 4503599627370496 (-52).

(** An outer ring, then the header of a hole directly followed by its end
    marker. *)
Definition holeWithoutCoordinates : list string :=
  ["boundary"; "1"; "1  0.0  0.0"; "2  1.0  0.0"; "3  1.0  1.0"; "END";
   "!2"; "END"; "END"].

(** Two outer rings, each with its header, three coordinate lines and its
    end marker. *)
Definition twoOuterGroups : list string :=
  ["boundary";
   "1"; "1  0.0  0.0"; "2  1.0  0.0"; "3  1.0  1.0"; "END";
   "2"; "1  0.0  0.0"; "2  1.0  0.0"; "3  1.0  1.0"; "END";
   "END"].

(** The triangle of the examples, closed and not yet closed. *)
Definition unitTriangle : Ring :=
  [(zero, zero); (one, zero); (one, one); (zero, zero)].

Definition openTriangle : Ring := [(zero, zero); (one, zero); (one, one)].

(** The object after the name line and one ring header. *)
Definition oneOpenRing : World :=
  mkWorld (mkGjObj (Polygon [[]]) (Some "boundary")) [].

(** ** The main program *)

(** How the process ends, by its exit status: [process.exit(code)], the
    event loop running empty (status 0), or an exception nobody catches
    (status 1). *)
Inductive Status : Type :=
| Exit (code : Z).

(** What a run of the script shows: the lines written with [console.log],
    the lines written with [console.error], and how it ends. *)
Record Process : Type := mkProcess {
  stdout : list string;
  stderr : list string;
  status : Status
}.

Section MainProgram.

(** [JSON.stringify] on the object, [fse.existsSync], the lines
    [lineReader] delivers for a path, and the lines the runtime writes to
    standard error for an uncaught [TypeError] (the message and the stack
    trace) are taken as given. *)
Variable stringify : GjObj -> string.
Variable existsSync : string -> bool.
Variable linesOf : string -> list string.
Variable uncaughtReport : list string.

(** The script's top level, for [process.argv[2]] ([None] when absent):
    the check of the argument, the check of the file, [readLines], and the
    two handlers of its result.  Nothing catches a [TypeError] thrown by an
    examiner: the runtime reports it on standard error and the process
    ends with status 1. *)
Definition main (argv2 : option string) : Process :=
  match argv2 with
  | Some polyFilePath =>
      if truthy polyFilePath
      then
        if existsSync polyFilePath
        then
          match readLines (linesOf polyFilePath) with
          | Resolved w => mkProcess [stringify (gjObj w)] (console w) (Exit 0)
          | Rejected w =>
              mkProcess [] (console w ++ ["Processing terminated"]) (Exit 1)
          | Uncaught w => mkProcess [] (console w ++ uncaughtReport) (Exit 1)
          | Pending w => mkProcess [] (console w) (Exit 0)
          end
        else mkProcess [] ["File not found"] (Exit 1)
      else mkProcess [] ["No file specified"] (Exit 1)
  | None => mkProcess [] ["No file specified"] (Exit 1)
  end.

End MainProgram.

(** ** Notions used by the further properties *)

(** The text written when a ring is too short to close. *)
Definition notValid : string :=
  "Polygon coordinates not valid, file not in expected format".

(** The pair [readCoordinatePair] pushes for a line, if any: the Numbers
    of the pieces with index 1 and 2, when both exist and neither is NaN. *)
Definition pairOf (line : string) : option Position :=
  match split line 3 with
  | _ :: s1 :: s2 :: _ =>
      if isNaN (parseFloat s1) || isNaN (parseFloat s2)
      then None
      else Some (parseFloat s1, parseFloat s2)
  | _ => None
  end.

(** What [readCoordinatePair] writes to the console for a line. *)
Definition diagnosticsOf (line : string) : list string :=
  match split line 3 with
  | _ :: s1 :: s2 :: _ =>
      if isNaN (parseFloat s1) || isNaN (parseFloat s2)
      then [couldNotParse s1 s2]
      else []
  | _ => []
  end.

(** What follows a line that is not the end marker, in [polygonExaminer]
    and [coordinateExaminer]. *)
Definition afterPairTest (line : string) (examiner' : Examiner)
  : M (option Examiner) :=
  isPair <- readCoordinatePair line ;;
  if isPair
  then ret (Some CoordinateExaminer)
  else if truthy line
       then pushEmptyRing ;;; ret (Some examiner')
       else fun w => Normal None (consoleError nullInput w).

(** A string without two spaces in a row. *)
Fixpoint noDoubleSpace (s : string) : bool :=
  match s with
  | EmptyString => true
  | String c rest =>
      negb (isSpace c && startsWithSpace rest) && noDoubleSpace rest
  end.

(** A string without any space. *)
Fixpoint noSpace (s : string) : bool :=
  match s with
  | EmptyString => true
  | String c rest => negb (isSpace c) && noSpace rest
  end.

(** A run of [n] spaces. *)
Fixpoint spaces (n : nat) : string :=
  match n with
  | O => EmptyString
  | S k => String " "%char (spaces k)
  end.

(** Neither coordinate of the position is NaN. *)
Definition numeric (pos : Position) : Prop :=
  isNaN (fst pos) = false /\ isNaN (snd pos) = false.

(** [r] is [r'] cut short: [r'] has the positions of [r], in order, and
    possibly more after them. *)
Definition extends (r r' : Ring) : Prop := exists more, r' = r ++ more.

(** Every ring of [A] is found at the same place in the geometry,
    possibly longer. *)
Definition kept (A : list Ring) (g : Geometry) : Prop :=
  forall i r,
    nth_error A i = Some r ->
    exists r', nth_error (allRings g) i = Some r' /\ extends r r'.


(** *** Files in the expected format *)

(** A section of a polygon file: its header line and its coordinate
    lines.  In the file it is followed by its end marker. *)
Definition FileSection : Type := (string * list string)%type.

Definition sectionLines (sec : FileSection) : list string :=
  fst sec :: snd sec ++ [END].

(** The lines of a file: the name, the sections, the final end marker. *)
Definition fileLines (name : string) (sections : list FileSection)
  : list string :=
  name :: flat_map sectionLines sections ++ [END].

Fixpoint positionsOf (coords : list string) : option Ring :=
  match coords with
  | [] => Some []
  | line :: rest =>
      match pairOf line, positionsOf rest with
      | Some pos, Some ring => Some (pos :: ring)
      | _, _ => None
      end
  end.

(** The ring of a section: the positions of its coordinate lines, closed;
    none when a line is not a coordinate pair or there are fewer than
    three. *)
Definition sectionRing (coords : list string) : option Ring :=
  match positionsOf coords with
  | Some ring =>
      match closeRing ring with
      | (true, ring') => Some ring'
      | (false, _) => None
      end
  | None => None
  end.

(** The geometry with the finished polygons [front] and the rings [rings]
    of the polygon being filled. *)
Definition build (front : list (list Ring)) (rings : list Ring) : Geometry :=
  match front with
  | [] => Polygon rings
  | _ :: _ => MultiPolygon (front ++ [rings])
  end.

(** The world with that geometry, a name and a console. *)
Definition worldOf (front : list (list Ring)) (rings : list Ring)
  (name : option string) (log : list string) : World :=
  mkWorld (mkGjObj (build front rings) name) log.

(** The geometry a file describes, section by section after the first: a
    header starting with the subtract marker adds its ring to the polygon
    being filled, any other header starts a new polygon. *)
Fixpoint laterSections (front : list (list Ring)) (rings : list Ring)
  (sections : list FileSection) : option Geometry :=
  match sections with
  | [] => Some (build front rings)
  | (header, coords) :: rest =>
      if String.eqb header END then None
      else
        match sectionRing coords with
        | None => None
        | Some ring =>
            if startsWithSubtract header
            then laterSections front (rings ++ [ring]) rest
            else laterSections (front ++ [rings]) [ring] rest
        end
  end.

(** The geometry a file describes; none when the file is not in the
    expected format.  The first header must be a non-empty line that is
    neither the end marker nor a coordinate pair; its ring is the outer
    ring of the first polygon. *)
Definition describedGeometry (sections : list FileSection)
  : option Geometry :=
  match sections with
  | [] => Some (Polygon [])
  | (header, coords) :: rest =>
      if String.eqb header END || negb (truthy header)
      then None
      else
        match pairOf header, sectionRing coords with
        | None, Some ring => laterSections [] [ring] rest
        | _, _ => None
        end
  end.

(** *** Outer-ring groups of a file *)






(** The file of the specification's second example: an outer ring and a
    hole, with the columns two spaces apart. *)
Definition ringWithHole : list FileSection :=
  [("1", ["1  0  0"; "2  1  0"; "3  1  1"]);
   ("!2", ["1  0.2  0.2"; "2  0.5  0.2"; "3  0.5  0.5"])].

(** ** The built-ins on known values *)

Example split_known :
  split "   0.1446763E+03   -0.3825659E+02" 3
  = [EmptyString; "0.1446763E+03"; "-0.3825659E+02"]
  /\ split "a   b  c  d" 3 = ["a"; "b"; "c"]
  /\ split "a b  c" 3 = ["a b"; "c"]
  /\ split "a  " 3 = ["a"; EmptyString]
  /\ split EmptyString 3 = [EmptyString].
Proof. repeat split. Qed.

Example parseFloat_known :
  parseFloat "0.1" = S754_finite false 7205759403792794 (-56)
  /\ parseFloat "0.1446763E+03" = S754_finite false 5090344771635485 (-45)
  /\ parseFloat "9007199254740993" = S754_finite false 4503599627370496 1
  /\ parseFloat "5e-324" = S754_finite false 1 (-1074)
  /\ parseFloat "-0" = S754_zero true
  /\ parseFloat "1e400" = S754_infinity false
  /\ parseFloat "-Infinity" = S754_infinity true
  /\ parseFloat "12abc" = parseFloat "12"
  /\ parseFloat ".5" = parseFloat "0.5"
  /\ parseFloat "1e+" = one
  /\ parseFloat "." = S754_nan
  /\ parseFloat "north" = S754_nan
  /\ parseFloat EmptyString = S754_nan.
Proof. repeat split; vm_compute; reflexivity. Qed.

Example toFixed_known :
  toFixed (parseFloat "0.1") 12 = "0.100000000000"
  /\ toFixed (parseFloat "0.1") 20 = "0.10000000000000000555"
  /\ toFixed (parseFloat "1.005") 2 = "1.00"
  /\ toFixed (parseFloat "2.5") 0 = "3"
  /\ toFixed (parseFloat "-144.6763") 12 = "-144.676300000000"
  /\ toFixed (parseFloat "-1e-13") 12 = "-0.000000000000"
  /\ toFixed (parseFloat "-0") 12 = "0.000000000000"
  /\ toFixed (parseFloat "1e21") 12 = "1e+21"
  /\ toFixed (parseFloat "1180591620717411303424") 12
     = "1.1805916207174113e+21"
  /\ toFixed (parseFloat "Infinity") 12 = "Infinity"
  /\ toFixed (parseFloat "north") 12 = "NaN".
Proof. repeat split; vm_compute; reflexivity. Qed.

(** Two positions less than [10^-12] apart in both axes count as equal. *)
Example fixedDiffer_known :
  fixedDiffer (parseFloat "0.1", parseFloat "0.2")
              (parseFloat "0.1000000000001", parseFloat "0.2") = false
  /\ fixedDiffer (parseFloat "0.1", parseFloat "0.2")
                 (parseFloat "0.100000000001", parseFloat "0.2") = true.
Proof. split; vm_compute; reflexivity. Qed.

(** ** Arrays: facts *)

Section Unsnoc.
Context {A : Type}.

Lemma unsnoc_snoc (front : list A) (z : A) :
  unsnoc (front ++ [z]) = Some (front, z).
Proof.
  induction front as [|x front IH]; simpl.
  - reflexivity.
  - rewrite IH. reflexivity.
Qed.

Lemma unsnoc_some (arr front : list A) (z : A) :
  unsnoc arr = Some (front, z) -> arr = front ++ [z].
Proof.
  revert front z.
  induction arr as [|x rest IH]; simpl; intros front z H.
  - discriminate.
  - destruct (unsnoc rest) as [[f y]|] eqn:E.
    + inversion H; subst. simpl. f_equal. now apply IH.
    + inversion H; subst. destruct rest as [|r rest']; [reflexivity|].
      simpl in E. destruct (unsnoc rest') as [[? ?]|]; discriminate.
Qed.

Lemma last_snoc (front : list A) (z d : A) : last (front ++ [z]) d = z.
Proof.
  induction front as [|x front IH]; simpl; [reflexivity|].
  destruct (front ++ [z]) eqn:E; [destruct front; discriminate|].
  exact IH.
Qed.
End Unsnoc.

(** [split] returns at most [lim] pieces. *)
Lemma split_length (s : string) (lim : nat) :
  (List.length (split s lim) <= lim)%nat.
Proof. unfold split. apply firstn_le_length. Qed.

(** ** The driver and the state machine *)

Lemma run_app (pre post : list string) (ex : Examiner) (w : World) :
  run (pre ++ post) ex w =
  match run pre ex w with
  | Normal (Some ex') w' => run post ex' w'
  | other => other
  end.
Proof.
  revert ex w. induction pre as [|l pre IH]; intros ex w; simpl.
  - reflexivity.
  - destruct (call ex l w) as [[ex'|] w'|w']; auto.
Qed.

Lemma run_app_some (pre post : list string) (ex ex'' : Examiner)
  (w w'' : World) :
  run (pre ++ post) ex w = Normal (Some ex'') w'' ->
  exists ex' w', run pre ex w = Normal (Some ex') w'
                 /\ run post ex' w' = Normal (Some ex'') w''.
Proof.
  rewrite run_app.
  destruct (run pre ex w) as [[ex'|] w'|w'] eqn:E; try discriminate.
  eauto.
Qed.

(** [eachLine] hands over the object exactly when there is a line and the
    state machine gets through all of them. *)
Lemma eachLine_resolved (lines : list string) (ex : Examiner) (w wf : World) :
  eachLine lines ex w = Resolved wf <->
  lines <> [] /\ exists exf, run lines ex w = Normal (Some exf) wf.
Proof.
  revert ex w. induction lines as [|l rest IH]; intros ex w; simpl.
  - split; [discriminate|]. intros [H _]. now contradiction H.
  - destruct (call ex l w) as [[ex'|] w'|w'] eqn:E.
    + destruct rest as [|l' rest'].
      * simpl. split.
        -- intros H. inversion H; subst. split; [discriminate|eauto].
        -- intros [_ [exf H]]. congruence.
      * rewrite IH. split.
        -- intros [_ H]. split; [discriminate|exact H].
        -- intros [_ H]. split; [discriminate|exact H].
    + split; [discriminate|]. intros [_ [exf H]]. discriminate.
    + split; [discriminate|]. intros [_ [exf H]]. discriminate.
Qed.

(** A [null] from an examiner ends the parse at once, whatever follows. *)
Lemma eachLine_rejected (pre post : list string) (l : string)
  (ex ex' : Examiner) (w w' w'' : World) :
  run pre ex w = Normal (Some ex') w' ->
  call ex' l w' = Normal None w'' ->
  eachLine (pre ++ l :: post) ex w = Rejected w''.
Proof.
  revert ex w. induction pre as [|p pre IH]; intros ex w; simpl.
  - intros H. inversion H; subst. intros ->. reflexivity.
  - destruct (call ex p w) as [[e|] v|v] eqn:E; try discriminate.
    intros H1 H2. rewrite (IH _ _ H1 H2).
    destruct pre; reflexivity.
Qed.

(** The driver goes through the lines the state machine gets through. *)
Lemma eachLine_app (pre post : list string) (ex ex' : Examiner)
  (w w' : World) :
  run pre ex w = Normal (Some ex') w' ->
  post <> [] ->
  eachLine (pre ++ post) ex w = eachLine post ex' w'.
Proof.
  revert ex w. induction pre as [|p pre IH]; intros ex w; simpl.
  - intros H _. inversion H; subst. reflexivity.
  - destruct (call ex p w) as [[e|] v|v] eqn:E; try discriminate.
    intros H N. rewrite <- (IH _ _ H N).
    destruct (pre ++ post) eqn:A; [|reflexivity].
    apply app_eq_nil in A. now destruct A.
Qed.

(** A [TypeError] likewise. *)
Lemma eachLine_uncaught (pre post : list string) (l : string)
  (ex ex' : Examiner) (w w' w'' : World) :
  run pre ex w = Normal (Some ex') w' ->
  call ex' l w' = TypeError w'' ->
  eachLine (pre ++ l :: post) ex w = Uncaught w''.
Proof.
  revert ex w. induction pre as [|p pre IH]; intros ex w; simpl.
  - intros H. inversion H; subst. intros ->. reflexivity.
  - destruct (call ex p w) as [[e|] v|v] eqn:E; try discriminate.
    intros H1 H2. rewrite (IH _ _ H1 H2).
    destruct pre; reflexivity.
Qed.

(** ** What one call does to the geometry *)

Lemma pushEmptyRing_normal (w w' : World) (u : unit) :
  pushEmptyRing w = Normal u w' ->
  opened (geometry (gjObj w)) (geometry (gjObj w'))
  /\ w' = setGeometry w (geometry (gjObj w')).
Proof.
  unfold pushEmptyRing.
  destruct (geometry (gjObj w)) as [rings|polys] eqn:G.
  - intros H. inversion H; subst. simpl. split; [constructor|reflexivity].
  - destruct (unsnoc polys) as [[front poly]|] eqn:U; [|discriminate].
    intros H. inversion H; subst. simpl.
    apply unsnoc_some in U. subst polys. split; [constructor|reflexivity].
Qed.

Lemma pushPosition_normal (pos : Position) (w w' : World) (u : unit) :
  pushPosition pos w = Normal u w' ->
  (exists ring,
      replaced ring (ring ++ [pos]) (geometry (gjObj w)) (geometry (gjObj w')))
  /\ w' = setGeometry w (geometry (gjObj w')).
Proof.
  unfold pushPosition.
  destruct (geometry (gjObj w)) as [rings|polys] eqn:G.
  - destruct (unsnoc rings) as [[front ring]|] eqn:U; [|discriminate].
    intros H. inversion H; subst. simpl.
    apply unsnoc_some in U. subst rings.
    split; [exists ring; constructor|reflexivity].
  - destruct (unsnoc polys) as [[front poly]|] eqn:U; [|discriminate].
    destruct (unsnoc poly) as [[rings ring]|] eqn:U'; [|discriminate].
    intros H. inversion H; subst. simpl.
    apply unsnoc_some in U, U'. subst polys poly.
    split; [exists ring; constructor|reflexivity].
Qed.

Lemma ensureClosingCoordinates_normal (w w' : World) (b : bool) :
  ensureClosingCoordinates w = Normal b w' ->
  (exists ring ring',
      closeRing ring = (b, ring')
      /\ replaced ring ring' (geometry (gjObj w)) (geometry (gjObj w')))
  /\ w' = setGeometry w (geometry (gjObj w')).
Proof.
  unfold ensureClosingCoordinates.
  destruct (geometry (gjObj w)) as [rings|polys] eqn:G.
  - destruct (unsnoc rings) as [[front ring]|] eqn:U; [|discriminate].
    destruct (closeRing ring) as [result ring'] eqn:C.
    intros H. inversion H; subst. simpl.
    apply unsnoc_some in U. subst rings.
    split; [exists ring, ring'; split; [exact C|constructor]|reflexivity].
  - destruct (unsnoc polys) as [[front poly]|] eqn:U; [|discriminate].
    destruct (unsnoc poly) as [[rings ring]|] eqn:U'; [|discriminate].
    destruct (closeRing ring) as [result ring'] eqn:C.
    intros H. inversion H; subst. simpl.
    apply unsnoc_some in U, U'. subst polys poly.
    split; [exists ring, ring'; split; [exact C|constructor]|reflexivity].
Qed.

(** [readCoordinatePair] either pushes one position and returns [true], or
    leaves the object alone and returns [false]. *)
Lemma readCoordinatePair_normal (line : string) (w w' : World) (b : bool) :
  readCoordinatePair line w = Normal b w' ->
  (b = true
   /\ exists pos ring,
       replaced ring (ring ++ [pos]) (geometry (gjObj w)) (geometry (gjObj w'))
       /\ w' = setGeometry w (geometry (gjObj w')))
  \/ (b = false /\ gjObj w' = gjObj w).
Proof.
  unfold readCoordinatePair.
  destruct (split line 3) as [|t0 [|t1 [|t2 ts]]];
    try (unfold ret; intros H; inversion H; subst; right; split; reflexivity).
  destruct (isNaN (parseFloat t1) || isNaN (parseFloat t2)).
  - intros H. inversion H; subst. right. split; reflexivity.
  - unfold bind, ret.
    destruct (pushPosition (parseFloat t1, parseFloat t2) w) as [u v|v] eqn:P;
      [|discriminate].
    intros H. inversion H; subst.
    apply pushPosition_normal in P. destruct P as [[ring R] E].
    left. split; [reflexivity|]. eauto.
Qed.

Lemma eqb_END (line : string) :
  String.eqb line END = false -> line <> END.
Proof. intros H. now apply String.eqb_neq. Qed.

Lemma call_transition (ex ex' : Examiner) (line : string) (w w' : World) :
  call ex line w = Normal (Some ex') w' ->
  transition ex line (geometry (gjObj w)) ex' (geometry (gjObj w')).
Proof.
  destruct ex; simpl.
  - unfold fileExaminer. destruct (truthy line) eqn:T; [|discriminate].
    intros H. inversion H; subst. simpl. now constructor.
  - unfold polygonExaminer.
    destruct (String.eqb line END) eqn:E.
    + apply String.eqb_eq in E. subst line.
      unfold ret. intros H. inversion H; subst. constructor.
    + apply eqb_END in E. unfold bind at 1.
      destruct (readCoordinatePair line w) as [b v|v] eqn:R; [|discriminate].
      apply readCoordinatePair_normal in R.
      destruct R as [[-> [pos [ring [R _]]]]|[-> G]].
      * unfold ret. intros H. inversion H; subst. econstructor; eauto.
      * destruct (truthy line) eqn:T; [|discriminate].
        unfold bind, ret.
        destruct (pushEmptyRing v) as [u v'|v'] eqn:P; [|discriminate].
        intros H. inversion H; subst.
        apply pushEmptyRing_normal in P. destruct P as [P _].
        rewrite G in P. now constructor.
  - unfold coordinateExaminer.
    destruct (String.eqb line END) eqn:E.
    + apply String.eqb_eq in E. subst line. unfold bind.
      destruct (ensureClosingCoordinates w) as [b v|v] eqn:C; [|discriminate].
      apply ensureClosingCoordinates_normal in C.
      destruct C as [[ring [ring' [C R]]] _].
      destruct b; [|discriminate].
      unfold ret. intros H. inversion H; subst. econstructor; eauto.
    + apply eqb_END in E. unfold bind at 1.
      destruct (readCoordinatePair line w) as [b v|v] eqn:R; [|discriminate].
      apply readCoordinatePair_normal in R.
      destruct R as [[-> [pos [ring [R _]]]]|[-> G]].
      * unfold ret. intros H. inversion H; subst. econstructor; eauto.
      * destruct (truthy line) eqn:T; [|discriminate].
        unfold bind, ret.
        destruct (pushEmptyRing v) as [u v'|v'] eqn:P; [|discriminate].
        intros H. inversion H; subst.
        apply pushEmptyRing_normal in P. destruct P as [P _].
        rewrite G in P. now constructor.
  - unfold endExaminer.
    destruct (String.eqb line END) eqn:E.
    + apply String.eqb_eq in E. subst line.
      unfold ret. intros H. inversion H; subst. constructor.
    + unfold bind, ret.
      destruct (startsWithSubtract line) eqn:S.
      * destruct (pushEmptyRing w) as [u v|v] eqn:P; [|discriminate].
        intros H. inversion H; subst.
        apply pushEmptyRing_normal in P. destruct P as [P _].
        apply T_hole; auto using eqb_END.
      * destruct (geometry (gjObj w)) as [rings|polys] eqn:G;
          intros H; inversion H; subst; simpl;
          constructor; simpl; rewrite E, S; reflexivity.
Qed.

(** ** Ring closure *)

Lemma fixedDiffer_same (p : Position) : fixedDiffer p p = false.
Proof. unfold fixedDiffer. now rewrite !String.eqb_refl. Qed.

Lemma closeRing_closed (ring : Ring) (firstPair : Position) :
  (2 < List.length ring)%nat ->
  hd_error ring = Some firstPair ->
  last ring firstPair = firstPair ->
  closeRing ring = (true, ring).
Proof.
  intros Hlen H L.
  destruct ring as [|p [|p1 [|p2 rest]]]; simpl in Hlen; try lia.
  inversion H; subst.
  unfold closeRing. rewrite L, fixedDiffer_same. reflexivity.
Qed.

Lemma closeRing_open (ring : Ring) (firstPair : Position) :
  (2 < List.length ring)%nat ->
  hd_error ring = Some firstPair ->
  fixedDiffer firstPair (last ring firstPair) = true ->
  closeRing ring = (true, ring ++ [firstPair])
  /\ closeRing (ring ++ [firstPair]) = (true, ring ++ [firstPair]).
Proof.
  intros Hlen Hhd Hdiff. split.
  - destruct ring as [|p [|p1 [|p2 rest]]]; simpl in Hlen; try lia.
    inversion Hhd; subst. unfold closeRing. now rewrite Hdiff.
  - apply closeRing_closed with (firstPair := firstPair).
    + rewrite length_app. simpl. lia.
    + destruct ring; [discriminate|exact Hhd].
    + apply last_snoc.
Qed.

(** What [closeRing] leaves when it returns [true] is a closed ring. *)
Lemma closeRing_true (ring ring' : Ring) :
  closeRing ring = (true, ring') -> closedRing ring' = true.
Proof.
  destruct ring as [|p [|p1 [|p2 rest]]]; try discriminate.
  unfold closeRing.
  destruct (fixedDiffer p (last (p :: p1 :: p2 :: rest) p)) eqn:D;
    intros H; inversion H; subst.
  - change (closedRing (p :: p1 :: p2 :: (rest ++ [p])) = true).
    unfold closedRing.
    change (p :: p1 :: p2 :: rest ++ [p]) with ((p :: p1 :: p2 :: rest) ++ [p]).
    now rewrite last_snoc, fixedDiffer_same.
  - unfold closedRing. now rewrite D.
Qed.

Lemma closeRing_short (ring : Ring) :
  (List.length ring <= 2)%nat -> closeRing ring = (false, ring).
Proof.
  intros Hlen.
  destruct ring as [|p [|p1 [|p2 rest]]]; simpl in Hlen; try reflexivity; lia.
Qed.

Lemma closeRing_long (ring : Ring) :
  (2 < List.length ring)%nat -> exists ring', closeRing ring = (true, ring').
Proof.
  intros Hlen.
  destruct ring as [|p [|p1 [|p2 rest]]]; simpl in Hlen; try lia.
  unfold closeRing.
  destruct (fixedDiffer p (last (p :: p1 :: p2 :: rest) p)); eauto.
Qed.

Lemma closedRing_length (ring : Ring) :
  closedRing ring = true -> (3 <= List.length ring)%nat.
Proof.
  destruct ring as [|p [|p1 [|p2 rest]]]; simpl; try discriminate. lia.
Qed.

(** The current ring, seen through the shape of the geometry. *)
Lemma currentRing_some (g : Geometry) (ring : Ring) :
  currentRing g = Some ring ->
  (exists front, g = Polygon (front ++ [ring]))
  \/ (exists front rings, g = MultiPolygon (front ++ [rings ++ [ring]])).
Proof.
  destruct g as [rings|polys]; simpl.
  - destruct (unsnoc rings) as [[front r]|] eqn:U; [|discriminate].
    simpl. intros H. inversion H; subst.
    apply unsnoc_some in U. subst. left. eauto.
  - destruct (unsnoc polys) as [[front poly]|] eqn:U; [|discriminate].
    destruct (unsnoc poly) as [[rings r]|] eqn:U'; [|discriminate].
    simpl. intros H. inversion H; subst.
    apply unsnoc_some in U, U'. subst. right. eauto.
Qed.

Lemma replaced_currentRing (ring ring' : Ring) (g g' : Geometry) :
  replaced ring ring' g g' ->
  currentRing g = Some ring /\ currentRing g' = Some ring'.
Proof.
  intros H. destruct H; simpl; now rewrite !unsnoc_snoc.
Qed.

Lemma setGeometry_same (w : World) : setGeometry w (geometry (gjObj w)) = w.
Proof. destruct w as [[g n] c]. reflexivity. Qed.

(** [ensureClosingCoordinates] is [closeRing] on the current ring. *)
Lemma ensureClosingCoordinates_current (w : World) (ring : Ring) :
  currentRing (geometry (gjObj w)) = Some ring ->
  exists g',
    ensureClosingCoordinates w
    = Normal (fst (closeRing ring)) (setGeometry w g')
    /\ replaced ring (snd (closeRing ring)) (geometry (gjObj w)) g'.
Proof.
  intros H. apply currentRing_some in H.
  unfold ensureClosingCoordinates.
  destruct H as [[front G]|[front [rings G]]]; rewrite G.
  - rewrite unsnoc_snoc. destruct (closeRing ring) as [b r'].
    eexists. split; [reflexivity|constructor].
  - rewrite !unsnoc_snoc. destruct (closeRing ring) as [b r'].
    eexists. split; [reflexivity|constructor].
Qed.

Lemma replaced_same (ring : Ring) (g g' : Geometry) :
  replaced ring ring g g' -> g' = g.
Proof. intros H. destruct H; reflexivity. Qed.

(** ** Invariants of a run *)

(** An invariant of the geometry kept by every transition holds along
    every run. *)
Lemma run_invariant (I : Examiner -> Geometry -> Prop) :
  (forall ex ex' l g g', transition ex l g ex' g' -> I ex g -> I ex' g') ->
  forall lines ex w ex' w',
    run lines ex w = Normal (Some ex') w' ->
    I ex (geometry (gjObj w)) -> I ex' (geometry (gjObj w')).
Proof.
  intros Hstep lines.
  induction lines as [|l rest IH]; intros ex w ex' w'; simpl.
  - intros H. inversion H; subst. auto.
  - destruct (call ex l w) as [[ex1|] w1|w1] eqn:C; try discriminate.
    intros H HI. apply (IH _ _ _ _ H).
    apply call_transition in C. eauto.
Qed.

Lemma opened_currentRing (g g' : Geometry) :
  opened g g' -> currentRing g' = Some [].
Proof. intros H. destruct H; simpl; now rewrite !unsnoc_snoc. Qed.

Lemma transition_wellFormed (ex ex' : Examiner) (l : string)
  (g g' : Geometry) :
  transition ex l g ex' g' -> wellFormed ex g -> wellFormed ex' g'.
Proof.
  intros T W.
  destruct T;
    try (intros _; eexists; eapply opened_currentRing; eassumption);
    try (intros _; eexists;
         match goal with
         | R : replaced _ _ _ _ |- _ =>
             apply replaced_currentRing in R; apply R
         end);
    try (intros [E|[polys E]]; [discriminate|];
         apply W; right; eauto);
    try (intros _; eexists; reflexivity).
  intros _. simpl. rewrite unsnoc_snoc. simpl. eauto.
Qed.

Lemma run_wellFormed (lines : list string) (ex : Examiner) (w : World) :
  run lines FileExaminer initialWorld = Normal (Some ex) w ->
  wellFormed ex (geometry (gjObj w)).
Proof.
  intros H.
  apply (run_invariant wellFormed transition_wellFormed _ _ _ _ _ H).
  intros [E|[polys E]]; discriminate.
Qed.

Lemma pushEmptyRing_total (w : World) :
  wellFormed PolygonExaminer (geometry (gjObj w)) ->
  exists g',
    pushEmptyRing w = Normal tt (setGeometry w g')
    /\ opened (geometry (gjObj w)) g'.
Proof.
  intros W. unfold pushEmptyRing.
  destruct (geometry (gjObj w)) as [rings|polys] eqn:G.
  - eexists. split; [reflexivity|constructor].
  - destruct W as [ring R]; [right; eauto|].
    apply currentRing_some in R.
    destruct R as [[front R]|[front [rings R]]]; [discriminate|].
    inversion R; subst. rewrite unsnoc_snoc.
    eexists. split; [reflexivity|constructor].
Qed.

Lemma transition_settled (ex ex' : Examiner) (l : string)
  (g g' : Geometry) :
  transition ex l g ex' g' -> settled ex g -> settled ex' g'.
Proof.
  intros T S.
  destruct T;
    try (left; reflexivity);
    try (right; right; left; eapply opened_currentRing; eassumption);
    try (right; right; left; reflexivity).
  - destruct S as [E|[N|[N|[E _]]]]; try discriminate; unfold settled; auto.
  - exact S.
  - right; right; left. simpl. now rewrite unsnoc_snoc.
  - destruct S as [E|[N|[N|[E _]]]]; try discriminate; unfold settled; auto.
  - right; right; right. split; [reflexivity|].
    match goal with
    | R : replaced _ _ _ _ |- _ =>
        destruct (replaced_currentRing _ _ _ _ R) as [_ Hcur]
    end.
    eexists. split; [exact Hcur|]. eapply closeRing_true. eassumption.
Qed.

Lemma run_settled (lines : list string) (ex : Examiner) (w : World) :
  run lines FileExaminer initialWorld = Normal (Some ex) w ->
  settled ex (geometry (gjObj w)).
Proof.
  intros H.
  apply (run_invariant settled transition_settled _ _ _ _ _ H).
  right; left. reflexivity.
Qed.

(** *** Rings that are no longer touched *)

Lemma allRings_opened (g g' : Geometry) :
  opened g g' -> allRings g' = allRings g ++ [[]].
Proof.
  intros H. destruct H; simpl.
  - reflexivity.
  - rewrite !concat_app. simpl. rewrite !app_nil_r.
    now rewrite app_assoc.
Qed.

Lemma allRings_replaced (ring ring' : Ring) (g g' : Geometry) :
  replaced ring ring' g g' ->
  exists front,
    allRings g = front ++ [ring] /\ allRings g' = front ++ [ring'].
Proof.
  intros H. destruct H; simpl.
  - eauto.
  - exists (List.concat front ++ rings).
    rewrite !concat_app. simpl. rewrite !app_nil_r.
    now rewrite !app_assoc.
Qed.

Lemma snoc_not_nil {A : Type} (l : list A) (x : A) : l ++ [x] <> [].
Proof. destruct l; discriminate. Qed.

Lemma frozen_opened (P : list Ring) (ex ex' : Examiner) (g g' : Geometry) :
  opened g g' -> frozen P ex g -> frozen P ex' g'.
Proof.
  intros O [t [E _]]. exists (t ++ [[]]).
  rewrite (allRings_opened _ _ O), E, app_assoc.
  split; [reflexivity|]. intros _. apply snoc_not_nil.
Qed.

Lemma frozen_replaced (P : list Ring) (ex ex' : Examiner)
  (ring ring' : Ring) (g g' : Geometry) :
  ex <> EndExaminer ->
  replaced ring ring' g g' -> frozen P ex g -> frozen P ex' g'.
Proof.
  intros N R [t [E T]]. specialize (T N).
  destruct (allRings_replaced _ _ _ _ R) as [front [E1 E2]].
  destruct (exists_last T) as [t0 [z Ez]]. subst t.
  rewrite E1, app_assoc in E. apply app_inj_tail in E. destruct E as [E _].
  exists (t0 ++ [ring']). rewrite E2, E, app_assoc.
  split; [reflexivity|]. intros _. apply snoc_not_nil.
Qed.

Lemma transition_frozen (P : list Ring) (ex ex' : Examiner) (l : string)
  (g g' : Geometry) :
  transition ex l g ex' g' -> frozen P ex g -> frozen P ex' g'.
Proof.
  intros T F.
  destruct T;
    try (eapply frozen_opened; eassumption);
    try (eapply frozen_replaced; [|eassumption|eassumption]; discriminate).
  - destruct F as [t [E N]]. exists t. split; [exact E|].
    intros _. apply N. discriminate.
  - exact F.
  - destruct F as [t [E _]]. exists (t ++ [[]]). simpl in *.
    split; [|intros _; apply snoc_not_nil].
    rewrite E. now rewrite <- app_assoc.
  - destruct F as [t [E _]]. exists (t ++ [[]]). simpl in *.
    split; [|intros _; apply snoc_not_nil].
    rewrite concat_app. simpl. rewrite E. now rewrite <- app_assoc.
  - destruct F as [t [E _]]. exists t. split; [exact E|].
    intros N. now contradiction N.
Qed.

Lemma frozen_nth (front : list Ring) (ring : Ring) (ex : Examiner)
  (g : Geometry) :
  frozen (front ++ [ring]) ex g ->
  nth_error (allRings g) (List.length (front ++ [ring]) - 1) = Some ring.
Proof.
  intros [t [E _]]. rewrite E, length_app. simpl.
  replace (List.length front + 1 - 1)%nat with (List.length front) by lia.
  rewrite <- app_assoc. rewrite nth_error_app2 by lia.
  now rewrite Nat.sub_diag.
Qed.

(** *** The geometry type along a run *)

Lemma opensOuterGroup_End (ex : Examiner) (l : string) :
  opensOuterGroup ex l = true ->
  ex = EndExaminer /\ String.eqb l END = false
  /\ startsWithSubtract l = false.
Proof.
  destruct ex; simpl; try discriminate.
  intros H. apply andb_true_iff in H. destruct H as [H1 H2].
  apply negb_true_iff in H1, H2. auto.
Qed.

Lemma opensOuterGroup_subtract (l : string) :
  startsWithSubtract l = true -> opensOuterGroup EndExaminer l = false.
Proof. intros H. simpl. rewrite H. apply andb_false_r. Qed.

(** Under [POLYGON], a line that opens no outer-ring group keeps the
    type; one that does wraps the rings. *)
Lemma transition_polygon (ex ex' : Examiner) (l : string)
  (rings : list Ring) (g' : Geometry) :
  transition ex l (Polygon rings) ex' g' ->
  if opensOuterGroup ex l
  then ex' = PolygonExaminer /\ g' = MultiPolygon [rings; [[]]]
  else exists rings', g' = Polygon rings'.
Proof.
  intros T. remember (Polygon rings) as g eqn:G.
  destruct T; subst;
    try (simpl; eauto; fail);
    try (match goal with
         | O : opened _ _ |- _ => inversion O; subst
         | R : replaced _ _ _ _ |- _ => inversion R; subst
         end;
         first [ rewrite opensOuterGroup_subtract by assumption | simpl ];
         eauto; fail).
  - match goal with H : opensOuterGroup _ _ = true |- _ => rewrite H end.
    inversion G; subst. auto.
  - discriminate.
Qed.

Lemma snoc_eq_cons {A : Type} (front rest : list A) (x p0 : A) :
  front ++ [x] = p0 :: rest -> rest <> [] ->
  exists front', front = p0 :: front' /\ rest = front' ++ [x].
Proof.
  destruct front as [|y front']; simpl; intros H N.
  - inversion H; subst. now contradiction N.
  - inversion H; subst. eauto.
Qed.

(** Under [MULTIPOLYGON] the first polygon is never touched again, and a
    polygon is added exactly by the lines that open an outer-ring group. *)
Lemma transition_multi (ex ex' : Examiner) (l : string)
  (p0 : list Ring) (rest : list (list Ring)) (g' : Geometry) :
  transition ex l (MultiPolygon (p0 :: rest)) ex' g' -> rest <> [] ->
  exists rest',
    g' = MultiPolygon (p0 :: rest') /\ rest' <> []
    /\ List.length rest'
       = (List.length rest + if opensOuterGroup ex l then 1 else 0)%nat.
Proof.
  intros T N. remember (MultiPolygon (p0 :: rest)) as g eqn:G.
  destruct T; subst;
    try (exists rest; simpl; repeat split; auto; lia);
    try discriminate;
    try (match goal with
         | O : opened _ _ |- _ => inversion O as [|front poly E1 E2]; subst
         | R : replaced _ _ _ _ |- _ =>
             inversion R as [|front poly E1 E2]; subst
         end;
         destruct (snoc_eq_cons _ _ _ _ E1 N) as [front' [-> ->]];
         eexists; split; [reflexivity|]; split; [apply snoc_not_nil|];
         first [ rewrite opensOuterGroup_subtract by assumption | simpl ];
         rewrite !length_app; simpl; lia).
  inversion G; subst. exists (rest ++ [[[]]]).
  match goal with H : opensOuterGroup _ _ = true |- _ => rewrite H end.
  split; [reflexivity|]. split; [apply snoc_not_nil|].
  rewrite length_app. reflexivity.
Qed.

Lemma run_polygon (lines : list string) :
  forall ex w ex' w' rings,
    geometry (gjObj w) = Polygon rings ->
    run lines ex w = Normal (Some ex') w' ->
    outerGroupLines lines ex w = 0%nat ->
    exists rings', geometry (gjObj w') = Polygon rings'.
Proof.
  induction lines as [|l rest IH]; intros ex w ex' w' rings G; simpl.
  - intros H _. inversion H; subst. eauto.
  - destruct (call ex l w) as [[ex1|] w1|w1] eqn:C; try discriminate.
    intros H Z. apply call_transition in C. rewrite G in C.
    apply transition_polygon in C.
    destruct (opensOuterGroup ex l); [discriminate|].
    destruct C as [rings' G']. simpl in Z. eauto.
Qed.

Lemma run_multi (lines : list string) :
  forall ex w ex' w' p0 rest,
    geometry (gjObj w) = MultiPolygon (p0 :: rest) -> rest <> [] ->
    run lines ex w = Normal (Some ex') w' ->
    exists rest',
      geometry (gjObj w') = MultiPolygon (p0 :: rest') /\ rest' <> []
      /\ List.length rest'
         = (List.length rest + outerGroupLines lines ex w)%nat.
Proof.
  induction lines as [|l more IH]; intros ex w ex' w' p0 rest G N; simpl.
  - intros H. inversion H; subst. exists rest. repeat split; auto; lia.
  - destruct (call ex l w) as [[ex1|] w1|w1] eqn:C; try discriminate.
    intros H. apply call_transition in C. rewrite G in C.
    destruct (transition_multi _ _ _ _ _ _ C N) as [rest1 [G1 [N1 L1]]].
    destruct (IH _ _ _ _ _ _ G1 N1 H) as [rest' [G' [N' L']]].
    exists rest'. repeat split; auto. lia.
Qed.

(** ** The claims *)

(** *** C1: the worked example *)

(** C1, as stated, fails: on the example's lines with their single spaces
    the parse succeeds, but no line splits into three pieces, so every
    coordinate line opens a ring instead: the result is a Polygon of four
    empty rings, not one ring of four positions. *)
Lemma C1_single_spaces_four_empty_rings :
  readLines exampleSingleSpaces
  = Resolved (mkWorld (mkGjObj (Polygon [[]; []; []; []]) (Some "boundary")) [])
  /\ ~ (exists w p1 p2 p3 p4,
           readLines exampleSingleSpaces = Resolved w
           /\ geometry (gjObj w) = Polygon [[p1; p2; p3; p4]]
           /\ p4 = p1 /\ p1 = (zero, zero)).
Proof.
  assert (E : readLines exampleSingleSpaces
              = Resolved (mkWorld (mkGjObj (Polygon [[]; []; []; []])
                                           (Some "boundary")) []))
    by (vm_compute; reflexivity).
  split; [exact E|].
  intros [w [p1 [p2 [p3 [p4 [H [G _]]]]]]].
  rewrite E in H. inversion H; subst. discriminate.
Qed.

(** C1, amended: with the index, the longitude and the latitude two spaces
    apart (and no leading space), the parse succeeds and yields a Polygon
    with exactly one ring of 4 positions, the 4th equal to the 1st,
    [[0,0]]; nothing is written to the console. *)
Theorem C1_double_spaces_one_closed_ring :
  parseFloat "0.0" = zero /\ parseFloat "1.0" = one
  /\ readLines exampleDoubleSpaces
     = Resolved
         (mkWorld
            (mkGjObj
               (Polygon [[(zero, zero); (one, zero); (one, one); (zero, zero)]])
               (Some "boundary"))
            []).
Proof. repeat split; vm_compute; reflexivity. Qed.

(** *** C2: when a Feature is returned *)

(** C2, as stated, fails: a supply that ends in the middle of a coordinate
    list still returns the object.  The driver hands it over at the last
    line whenever the examiner returned is not [null], whichever examiner
    that is. *)
Lemma C2_feature_returned_mid_ring :
  ~ (forall lines wf,
        readLines lines = Resolved wf ->
        run lines FileExaminer initialWorld = Normal (Some EndExaminer) wf).
Proof.
  intros H.
  specialize (H ["boundary"; "1"; "1  0.0  0.0"]
                (mkWorld (mkGjObj (Polygon [[(zero, zero)]]) (Some "boundary"))
                         [])).
  assert (R : readLines ["boundary"; "1"; "1  0.0  0.0"]
              = Resolved
                  (mkWorld (mkGjObj (Polygon [[(zero, zero)]])
                                    (Some "boundary")) []))
    by (vm_compute; reflexivity).
  specialize (H R). vm_compute in H. discriminate.
Qed.

(** C2, amended: the parse returns the object exactly when the supply has
    a line and no examiner returns [null] (or throws) on any line, whatever
    examiner awaits the next line at the end; and a [null] ends the parse
    at once with an error, so that the object is not returned, whatever
    lines follow. *)
Theorem C2_feature_iff_no_failure :
  (forall lines wf,
      readLines lines = Resolved wf <->
      lines <> []
      /\ exists exf,
          run lines FileExaminer initialWorld = Normal (Some exf) wf)
  /\ (forall pre line post ex w w',
         run pre FileExaminer initialWorld = Normal (Some ex) w ->
         call ex line w = Normal None w' ->
         readLines (pre ++ line :: post) = Rejected w'
         /\ forall wf, readLines (pre ++ line :: post) <> Resolved wf).
Proof.
  split.
  - intros lines wf. apply eachLine_resolved.
  - intros pre line post ex w w' R C.
    assert (E : readLines (pre ++ line :: post) = Rejected w')
      by (eapply eachLine_rejected; eassumption).
    split; [exact E|]. intros wf. rewrite E. discriminate.
Qed.

Lemma C2_feature_iff_no_failure_witness :
  readLines ["boundary"; "1"; "1  0.0  0.0"; "END"; "END"]
  = Rejected
      (mkWorld (mkGjObj (Polygon [[(zero, zero)]]) (Some "boundary"))
         ["Polygon coordinates not valid, file not in expected format"])
  /\ forall wf,
      readLines ["boundary"; "1"; "1  0.0  0.0"; "END"; "END"] <> Resolved wf.
Proof.
  apply (proj2 C2_feature_iff_no_failure
           ["boundary"; "1"; "1  0.0  0.0"] "END" ["END"]
           CoordinateExaminer
           (mkWorld (mkGjObj (Polygon [[(zero, zero)]]) (Some "boundary")) [])).
  - vm_compute; reflexivity.
  - vm_compute; reflexivity.
Defined.

(** *** C3: closed rings *)

(** C3, as stated, fails: an end marker met by [polygonExaminer] (here
    right after the header of a hole) is consumed without any check, and
    the ring it ends stays empty in the object returned. *)
Lemma C3_empty_ring_returned :
  ~ (forall lines wf ring,
        readLines lines = Resolved wf ->
        In ring (allRings (geometry (gjObj wf))) ->
        closedRing ring = true).
Proof.
  intros H.
  assert (R : readLines holeWithoutCoordinates
              = Resolved
                  (mkWorld
                     (mkGjObj
                        (Polygon
                           [[(zero, zero); (one, zero); (one, one);
                             (zero, zero)]; []])
                        (Some "boundary")) []))
    by (vm_compute; reflexivity).
  specialize (H _ _ [] R). simpl in H.
  assert (C : closedRing [] = true) by (apply H; auto).
  discriminate.
Qed.

(** C3, amended: every ring closed by [ensureClosingCoordinates], that is
    the current ring when [coordinateExaminer] consumes an end marker
    without failing, has at least 3 positions, the first and the last equal
    under the 12-digit fixed-point comparison; it is never changed
    afterwards: it is found, at the same place, at every later point of the
    parse, and so in the object returned on success. *)
Theorem C3_closed_ring_invariant :
  forall pre w1 ex2 w2,
    run pre FileExaminer initialWorld = Normal (Some CoordinateExaminer) w1 ->
    call CoordinateExaminer END w1 = Normal (Some ex2) w2 ->
    exists ring,
      currentRing (geometry (gjObj w2)) = Some ring
      /\ closedRing ring = true
      /\ (3 <= List.length ring)%nat
      /\ (forall post exf wf,
             run post ex2 w2 = Normal (Some exf) wf ->
             nth_error (allRings (geometry (gjObj wf)))
                       (List.length (allRings (geometry (gjObj w2))) - 1)
             = Some ring)
      /\ (forall post wf,
             readLines (pre ++ END :: post) = Resolved wf ->
             In ring (allRings (geometry (gjObj wf)))).
Proof.
  intros pre w1 ex2 w2 R C.
  pose proof (call_transition _ _ _ _ _ C) as T.
  inversion T as [| | | | | |
                  | | ring ring' g g' Hclose Hrep | |]; subst;
    try (match goal with H : END <> END |- _ => now contradiction H end).
  pose proof (closeRing_true _ _ Hclose) as Hclosed.
  destruct (replaced_currentRing _ _ _ _ Hrep) as [_ Hcur].
  destruct (allRings_replaced _ _ _ _ Hrep) as [front [_ Hall]].
  assert (Hlater : forall post exf wf,
             run post EndExaminer w2 = Normal (Some exf) wf ->
             nth_error (allRings (geometry (gjObj wf)))
                       (List.length (allRings (geometry (gjObj w2))) - 1)
             = Some ring').
  { intros post exf wf Hrun. rewrite Hall.
    apply frozen_nth with (ex := exf).
    apply (run_invariant (frozen (front ++ [ring'])) (transition_frozen _)
             _ _ _ _ _ Hrun).
    exists []. rewrite app_nil_r. split; [exact Hall|].
    intros N. now contradiction N. }
  exists ring'. repeat split; auto using closedRing_length.
  intros post wf Hres.
  apply eachLine_resolved in Hres. destruct Hres as [_ [exf Hrun]].
  apply run_app_some in Hrun. destruct Hrun as [ex' [w' [Hpre Hpost]]].
  rewrite R in Hpre. inversion Hpre; subst.
  cbn [run] in Hpost. rewrite C in Hpost.
  eapply nth_error_In. eapply Hlater. eassumption.
Qed.

Lemma C3_closed_ring_invariant_witness :
  exists ring,
    currentRing (Polygon [[(zero, zero); (one, zero); (one, one); (zero, zero)]])
    = Some ring
    /\ closedRing ring = true
    /\ (3 <= List.length ring)%nat
    /\ (forall post exf wf,
           run post EndExaminer
               (mkWorld
                  (mkGjObj
                     (Polygon
                        [[(zero, zero); (one, zero); (one, one); (zero, zero)]])
                     (Some "boundary")) [])
           = Normal (Some exf) wf ->
           nth_error (allRings (geometry (gjObj wf))) (1 - 1) = Some ring)
    /\ (forall post wf,
           readLines
             (["boundary"; "1"; "1  0.0  0.0"; "2  1.0  0.0"; "3  1.0  1.0"]
                ++ END :: post) = Resolved wf ->
           In ring (allRings (geometry (gjObj wf)))).
Proof.
  apply (C3_closed_ring_invariant
           ["boundary"; "1"; "1  0.0  0.0"; "2  1.0  0.0"; "3  1.0  1.0"]
           (mkWorld
              (mkGjObj (Polygon [[(zero, zero); (one, zero); (one, one)]])
                       (Some "boundary")) [])
           EndExaminer
           (mkWorld
              (mkGjObj
                 (Polygon
                    [[(zero, zero); (one, zero); (one, one); (zero, zero)]])
                 (Some "boundary")) [])).
  - vm_compute; reflexivity.
  - vm_compute; reflexivity.
Defined.

(** *** C4: promotion to MultiPolygon *)

Lemma endExaminer_opens (line : string) (w : World) :
  opensOuterGroup EndExaminer line = true ->
  endExaminer line w
  = Normal (Some PolygonExaminer)
      (setGeometry w
         match geometry (gjObj w) with
         | Polygon rings => MultiPolygon [rings; [[]]]
         | MultiPolygon polys => MultiPolygon (polys ++ [[[]]])
         end).
Proof.
  intros O. apply opensOuterGroup_End in O. destruct O as [_ [E S]].
  unfold endExaminer, bind, ret. rewrite E, S.
  destruct (geometry (gjObj w)); reflexivity.
Qed.

(** C4: the geometry starts as a Polygon with no ring; as long as no line
    has opened a further outer-ring group it is a Polygon; the first line
    that does (a line other than the end marker and not starting with the
    subtract marker, received by [endExaminer]) turns it into the
    MultiPolygon whose first polygon is the ring sequence built so far,
    followed by a polygon of one empty ring; from then on it is a
    MultiPolygon with that same first polygon, so it is promoted once; and
    a call on a MultiPolygon leaves a MultiPolygon, a further such line
    only appending a polygon of one empty ring. *)
Theorem C4_promoted_once_at_first_outer_group :
  geometry (gjObj initialWorld) = Polygon []
  /\ (forall lines ex w,
         run lines FileExaminer initialWorld = Normal (Some ex) w ->
         outerGroupLines lines FileExaminer initialWorld = 0%nat ->
         exists rings, geometry (gjObj w) = Polygon rings)
  /\ (forall pre line post ex w exf wf,
         run pre FileExaminer initialWorld = Normal (Some ex) w ->
         outerGroupLines pre FileExaminer initialWorld = 0%nat ->
         opensOuterGroup ex line = true ->
         run (pre ++ line :: post) FileExaminer initialWorld
         = Normal (Some exf) wf ->
         exists rings rest,
           geometry (gjObj w) = Polygon rings
           /\ call ex line w
              = Normal (Some PolygonExaminer)
                  (setGeometry w (MultiPolygon [rings; [[]]]))
           /\ geometry (gjObj wf) = MultiPolygon (rings :: rest)
           /\ rest <> [])
  /\ (forall ex line w polys ex' w',
         geometry (gjObj w) = MultiPolygon polys ->
         call ex line w = Normal (Some ex') w' ->
         exists polys',
           geometry (gjObj w') = MultiPolygon polys'
           /\ (opensOuterGroup ex line = true -> polys' = polys ++ [[[]]])).
Proof.
  split; [reflexivity|]. split; [|split].
  - intros lines ex w R Z.
    exact (run_polygon lines FileExaminer initialWorld _ _ [] eq_refl R Z).
  - intros pre line post ex w exf wf R Z O Rall.
    destruct (run_polygon pre FileExaminer initialWorld _ _ [] eq_refl R Z)
      as [rings G].
    destruct (opensOuterGroup_End _ _ O) as [-> _].
    pose proof (endExaminer_opens line w O) as C. rewrite G in C.
    apply run_app_some in Rall. destruct Rall as [ex' [w' [Rpre Rpost]]].
    rewrite R in Rpre. inversion Rpre; subst.
    cbn [run call] in Rpost. rewrite C in Rpost.
    destruct (run_multi post PolygonExaminer
                (setGeometry w' (MultiPolygon [rings; [[]]])) exf wf
                rings [[[]]] eq_refl ltac:(discriminate) Rpost)
      as [rest [G' [N _]]].
    exists rings, rest. repeat split; auto.
  - intros ex line w polys ex' w' G C.
    pose proof (call_transition _ _ _ _ _ C) as T. rewrite G in T.
    destruct (opensOuterGroup ex line) eqn:O.
    + destruct (opensOuterGroup_End _ _ O) as [-> _].
      simpl in C. rewrite (endExaminer_opens line w O), G in C.
      inversion C; subst. simpl. eexists. split; [reflexivity|auto].
    + remember (MultiPolygon polys) as g eqn:Eg.
      destruct T; subst; try discriminate;
        try (eexists; split; [reflexivity|discriminate]);
        try (match goal with
             | H : opened _ _ |- _ => inversion H; subst
             | H : replaced _ _ _ _ |- _ => inversion H; subst
             end; eexists; split; [reflexivity|discriminate]).
Qed.

Lemma C4_promoted_once_at_first_outer_group_witness :
  exists rings rest,
    Polygon [unitTriangle] = Polygon rings
    /\ call EndExaminer "2"
         (mkWorld (mkGjObj (Polygon [unitTriangle]) (Some "boundary")) [])
       = Normal (Some PolygonExaminer)
           (setGeometry
              (mkWorld (mkGjObj (Polygon [unitTriangle]) (Some "boundary")) [])
              (MultiPolygon [rings; [[]]]))
    /\ MultiPolygon [[unitTriangle]; [unitTriangle]]
       = MultiPolygon (rings :: rest)
    /\ rest <> [].
Proof.
  apply (proj1 (proj2 (proj2 C4_promoted_once_at_first_outer_group))
           (firstn 6 twoOuterGroups) "2" (skipn 7 twoOuterGroups)
           EndExaminer
           (mkWorld (mkGjObj (Polygon [unitTriangle]) (Some "boundary")) [])
           EndExaminer
           (mkWorld
              (mkGjObj (MultiPolygon [[unitTriangle]; [unitTriangle]])
                       (Some "boundary")) [])).
  - vm_compute; reflexivity.
  - vm_compute; reflexivity.
  - vm_compute; reflexivity.
  - vm_compute; reflexivity.
Defined.

(** *** C6: ring closure is idempotent *)

(** C6: on a current ring of more than 2 positions whose first and last
    positions are identical, [ensureClosingCoordinates] succeeds and leaves
    the object as it is; on one whose first and last positions differ in
    the 12-digit fixed-point text of either axis, it succeeds and appends
    exactly one position, the first one, and a second call on the result
    changes nothing. *)
Theorem C6_ring_closure_idempotent :
  forall (w : World) (ring : Ring) (firstPair : Position),
    currentRing (geometry (gjObj w)) = Some ring ->
    (2 < List.length ring)%nat ->
    hd_error ring = Some firstPair ->
    (last ring firstPair = firstPair ->
     closeRing ring = (true, ring)
     /\ ensureClosingCoordinates w = Normal true w)
    /\ (fixedDiffer firstPair (last ring firstPair) = true ->
        closeRing ring = (true, ring ++ [firstPair])
        /\ closeRing (ring ++ [firstPair]) = (true, ring ++ [firstPair])
        /\ exists w',
            ensureClosingCoordinates w = Normal true w'
            /\ replaced ring (ring ++ [firstPair])
                        (geometry (gjObj w)) (geometry (gjObj w'))
            /\ ensureClosingCoordinates w' = Normal true w').
Proof.
  intros w ring firstPair Hcur Hlen Hhd.
  destruct (ensureClosingCoordinates_current w ring Hcur) as [g' [E R]].
  split.
  - intros Hsame.
    pose proof (closeRing_closed ring firstPair Hlen Hhd Hsame) as C.
    split; [exact C|].
    rewrite C in E, R. simpl in E, R.
    apply replaced_same in R. subst g'.
    now rewrite setGeometry_same in E.
  - intros Hdiff.
    destruct (closeRing_open ring firstPair Hlen Hhd Hdiff) as [C1 C2].
    split; [exact C1|]. split; [exact C2|].
    rewrite C1 in E, R. simpl in E, R.
    exists (setGeometry w g'). split; [exact E|]. split; [exact R|].
    destruct (replaced_currentRing _ _ _ _ R) as [_ Hcur'].
    destruct (ensureClosingCoordinates_current (setGeometry w g')
                (ring ++ [firstPair]) Hcur') as [g'' [E' R']].
    rewrite C2 in E', R'. simpl in E', R'.
    apply replaced_same in R'. subst g''.
    now rewrite setGeometry_same in E'.
Qed.

Lemma C6_ring_closure_idempotent_witness :
  (closeRing unitTriangle = (true, unitTriangle)
   /\ ensureClosingCoordinates
        (mkWorld (mkGjObj (Polygon [unitTriangle]) None) [])
      = Normal true (mkWorld (mkGjObj (Polygon [unitTriangle]) None) []))
  /\ (closeRing openTriangle = (true, openTriangle ++ [(zero, zero)])
      /\ closeRing (openTriangle ++ [(zero, zero)])
         = (true, openTriangle ++ [(zero, zero)])
      /\ exists w',
          ensureClosingCoordinates
            (mkWorld
               (mkGjObj (MultiPolygon [[unitTriangle]; [openTriangle]]) None)
               [])
          = Normal true w'
          /\ replaced openTriangle (openTriangle ++ [(zero, zero)])
               (MultiPolygon [[unitTriangle]; [openTriangle]])
               (geometry (gjObj w'))
          /\ ensureClosingCoordinates w' = Normal true w').
Proof.
  split.
  - apply (C6_ring_closure_idempotent
             (mkWorld (mkGjObj (Polygon [unitTriangle]) None) [])
             unitTriangle (zero, zero)).
    + reflexivity.
    + simpl; lia.
    + reflexivity.
    + reflexivity.
  - apply (C6_ring_closure_idempotent
             (mkWorld
                (mkGjObj (MultiPolygon [[unitTriangle]; [openTriangle]]) None)
                [])
             openTriangle (zero, zero)).
    + reflexivity.
    + simpl; lia.
    + reflexivity.
    + vm_compute; reflexivity.
Defined.

(** *** C7: rings too short to close *)

Lemma coordinateExaminer_END (w : World) (ring : Ring) :
  currentRing (geometry (gjObj w)) = Some ring ->
  exists g',
    replaced ring (snd (closeRing ring)) (geometry (gjObj w)) g'
    /\ call CoordinateExaminer END w
       = if fst (closeRing ring)
         then Normal (Some EndExaminer) (setGeometry w g')
         else Normal None
                (consoleError
                   "Polygon coordinates not valid, file not in expected format"
                   (setGeometry w g')).
Proof.
  intros Hcur.
  destruct (ensureClosingCoordinates_current w ring Hcur) as [g' [E R]].
  exists g'. split; [exact R|].
  unfold call, coordinateExaminer, bind. simpl. rewrite E.
  destruct (fst (closeRing ring)); reflexivity.
Qed.

(** C7, as stated, fails for a ring with no position whose end marker is
    met by [polygonExaminer]: that examiner accepts the end marker without
    looking at the ring.  Here the hole opened by ["!2"] has 0 positions
    when its end marker is consumed, and the parse goes on and succeeds. *)
Lemma C7_empty_ring_end_marker_accepted :
  let pre := ["boundary"; "1"; "1  0.0  0.0"; "2  1.0  0.0"; "3  1.0  1.0";
              "END"; "!2"] in
  let w := mkWorld (mkGjObj (Polygon [unitTriangle; []]) (Some "boundary")) [] in
  run pre FileExaminer initialWorld = Normal (Some PolygonExaminer) w
  /\ currentRing (geometry (gjObj w)) = Some []
  /\ call PolygonExaminer END w = Normal (Some EndExaminer) w
  /\ readLines (pre ++ [END; END]) = Resolved w.
Proof. repeat split; vm_compute; reflexivity. Qed.

(** C7, amended: whenever an end marker is consumed while the current
    ring has 1 or 2 positions, coordinates are being awaited
    ([coordinateExaminer]); whenever [coordinateExaminer] consumes the end
    marker with a current ring of 2 positions or fewer (none included) it
    returns [null] with a diagnostic and the parse fails, whatever follows;
    and whenever the end marker is consumed while the current ring has 3
    positions, the call succeeds and the parse continues with
    [endExaminer].  (Only an empty ring whose end marker is met by
    [polygonExaminer] escapes the check.) *)
Theorem C7_short_ring_fails_at_end_marker :
  forall pre ex w ring,
    run pre FileExaminer initialWorld = Normal (Some ex) w ->
    currentRing (geometry (gjObj w)) = Some ring ->
    ((1 <= List.length ring <= 2)%nat -> ex = CoordinateExaminer)
    /\ (ex = CoordinateExaminer -> (List.length ring <= 2)%nat ->
        call ex END w
        = Normal None
            (consoleError
               "Polygon coordinates not valid, file not in expected format" w)
        /\ forall post,
            readLines (pre ++ END :: post)
            = Rejected
                (consoleError
                   "Polygon coordinates not valid, file not in expected format"
                   w))
    /\ (List.length ring = 3%nat ->
        exists w',
          call ex END w = Normal (Some EndExaminer) w'
          /\ readLines (pre ++ [END]) = Resolved w'
          /\ forall post,
              post <> [] ->
              readLines (pre ++ END :: post) = eachLine post EndExaminer w').
Proof.
  intros pre ex w ring R Hcur.
  pose proof (run_settled _ _ _ R) as S.
  assert (Hcont : forall w',
             call ex END w = Normal (Some EndExaminer) w' ->
             readLines (pre ++ [END]) = Resolved w'
             /\ forall post,
                 post <> [] ->
                 readLines (pre ++ END :: post)
                 = eachLine post EndExaminer w').
  { intros w' C. split.
    - apply eachLine_resolved. split; [apply snoc_not_nil|].
      exists EndExaminer. rewrite run_app, R. cbn [run]. now rewrite C.
    - intros post N. unfold readLines.
      rewrite (eachLine_app pre (END :: post) _ _ _ _ R) by discriminate.
      cbn [eachLine]. rewrite C.
      destruct post; [now contradiction N|reflexivity]. }
  split; [|split].
  - intros Hlen.
    destruct S as [E|[N|[N|[_ [ring' [Hcur' Hclosed]]]]]]; auto.
    + congruence.
    + rewrite Hcur in N. inversion N; subst. simpl in Hlen. lia.
    + rewrite Hcur in Hcur'. inversion Hcur'; subst.
      apply closedRing_length in Hclosed. lia.
  - intros -> Hlen.
    destruct (coordinateExaminer_END w ring Hcur) as [g' [Hrep C]].
    rewrite (closeRing_short ring Hlen) in C, Hrep.
    cbn [fst snd] in C, Hrep. apply replaced_same in Hrep. subst g'.
    rewrite setGeometry_same in C.
    split; [exact C|]. intros post.
    eapply eachLine_rejected; eassumption.
  - intros Hlen.
    destruct S as [E|[N|[N|[E _]]]].
    + subst ex.
      destruct (coordinateExaminer_END w ring Hcur) as [g' [Hrep C]].
      destruct (closeRing_long ring ltac:(lia)) as [ring' Hclose].
      rewrite Hclose in C. cbn [fst snd] in C.
      exists (setGeometry w g'). split; [exact C|]. now apply Hcont.
    + congruence.
    + rewrite Hcur in N. inversion N; subst. discriminate.
    + subst ex. exists w. split; [reflexivity|]. now apply Hcont.
Qed.

Lemma C7_short_ring_fails_at_end_marker_witness :
  (forall post,
      readLines
        (["boundary"; "1"; "1  0.0  0.0"; "2  1.0  0.0"] ++ END :: post)
      = Rejected
          (consoleError
             "Polygon coordinates not valid, file not in expected format"
             (mkWorld (mkGjObj (Polygon [[(zero, zero); (one, zero)]])
                               (Some "boundary")) [])))
  /\ (exists w',
         call CoordinateExaminer END
           (mkWorld (mkGjObj (Polygon [openTriangle]) (Some "boundary")) [])
         = Normal (Some EndExaminer) w'
         /\ readLines
              (["boundary"; "1"; "1  0.0  0.0"; "2  1.0  0.0"; "3  1.0  1.0"]
                 ++ [END])
            = Resolved w').
Proof.
  split.
  - apply (C7_short_ring_fails_at_end_marker
             ["boundary"; "1"; "1  0.0  0.0"; "2  1.0  0.0"]
             CoordinateExaminer
             (mkWorld (mkGjObj (Polygon [[(zero, zero); (one, zero)]])
                               (Some "boundary")) [])
             [(zero, zero); (one, zero)]).
    + vm_compute; reflexivity.
    + reflexivity.
    + reflexivity.
    + simpl; lia.
  - destruct (C7_short_ring_fails_at_end_marker
                ["boundary"; "1"; "1  0.0  0.0"; "2  1.0  0.0"; "3  1.0  1.0"]
                CoordinateExaminer
                (mkWorld (mkGjObj (Polygon [openTriangle]) (Some "boundary"))
                         [])
                openTriangle
                ltac:(vm_compute; reflexivity) eq_refl)
      as [_ [_ Hthree]].
    destruct (Hthree eq_refl) as [w' [C [R _]]].
    exists w'. split; [exact C|exact R].
Defined.

(** *** C8: a coordinate line that does not parse *)

Lemma truthy_nonempty (line : string) : line <> EmptyString -> truthy line = true.
Proof. destruct line; [intros H; now contradiction H|reflexivity]. Qed.

Lemma coordinateExaminer_not_pair (line : string) (w v : World) :
  wellFormed PolygonExaminer (geometry (gjObj w)) ->
  line <> EmptyString -> line <> END ->
  readCoordinatePair line w = Normal false v ->
  gjObj v = gjObj w ->
  exists g',
    call CoordinateExaminer line w
    = Normal (Some PolygonExaminer) (setGeometry v g')
    /\ opened (geometry (gjObj w)) g'.
Proof.
  intros W Hne Hend R G.
  assert (W' : wellFormed PolygonExaminer (geometry (gjObj v)))
    by now rewrite G.
  destruct (pushEmptyRing_total v W') as [g' [P O]].
  exists g'. rewrite G in O. split; [|exact O].
  unfold call, coordinateExaminer.
  apply String.eqb_neq in Hend. rewrite Hend.
  unfold bind at 1. rewrite R, (truthy_nonempty _ Hne).
  unfold bind, ret. now rewrite P.
Qed.

(** C8: when [coordinateExaminer] (coordinates awaited) receives a line
    that is not empty and not the end marker, and whose second or third
    piece does not parse as a number, it does not return [null]: one
    diagnostic is written to the console, an empty ring is pushed onto the
    current ring sequence, the name is kept and the next examiner is
    [polygonExaminer].  A line with fewer than three pieces is treated the
    same way, with nothing written. *)
Theorem C8_unparsable_coordinate_opens_ring :
  forall pre w line,
    run pre FileExaminer initialWorld = Normal (Some CoordinateExaminer) w ->
    line <> EmptyString -> line <> END ->
    (forall t0 t1 t2,
        split line 3 = [t0; t1; t2] ->
        isNaN (parseFloat t1) || isNaN (parseFloat t2) = true ->
        exists w',
          call CoordinateExaminer line w = Normal (Some PolygonExaminer) w'
          /\ console w' = console w ++ [couldNotParse t1 t2]
          /\ properties_name (gjObj w') = properties_name (gjObj w)
          /\ opened (geometry (gjObj w)) (geometry (gjObj w')))
    /\ ((List.length (split line 3) < 3)%nat ->
        exists w',
          call CoordinateExaminer line w = Normal (Some PolygonExaminer) w'
          /\ console w' = console w
          /\ properties_name (gjObj w') = properties_name (gjObj w)
          /\ opened (geometry (gjObj w)) (geometry (gjObj w'))).
Proof.
  intros pre w line R Hne Hend.
  assert (W : wellFormed PolygonExaminer (geometry (gjObj w))).
  { pose proof (run_wellFormed _ _ _ R) as W.
    intros _. apply W. now left. }
  split.
  - intros t0 t1 t2 S N.
    destruct (coordinateExaminer_not_pair line w
                (consoleError (couldNotParse t1 t2) w) W Hne Hend)
      as [g' [C O]].
    + unfold readCoordinatePair. rewrite S, N. reflexivity.
    + reflexivity.
    + eexists. split; [exact C|]. repeat split. exact O.
  - intros L.
    destruct (coordinateExaminer_not_pair line w w W Hne Hend)
      as [g' [C O]].
    + unfold readCoordinatePair.
      destruct (split line 3) as [|t0 [|t1 [|t2 ts]]];
        try reflexivity; simpl in L; lia.
    + reflexivity.
    + eexists. split; [exact C|]. repeat split. exact O.
Qed.

Lemma C8_unparsable_coordinate_opens_ring_witness :
  (exists w',
      call CoordinateExaminer "2  1.0  north"
        (mkWorld (mkGjObj (Polygon [[(zero, zero)]]) (Some "boundary")) [])
      = Normal (Some PolygonExaminer) w'
      /\ console w' = [] ++ [couldNotParse "1.0" "north"]
      /\ properties_name (gjObj w') = Some "boundary"
      /\ opened (Polygon [[(zero, zero)]]) (geometry (gjObj w')))
  /\ (exists w',
         call CoordinateExaminer "2"
           (mkWorld (mkGjObj (Polygon [[(zero, zero)]]) (Some "boundary")) [])
         = Normal (Some PolygonExaminer) w'
         /\ console w' = []
         /\ properties_name (gjObj w') = Some "boundary"
         /\ opened (Polygon [[(zero, zero)]]) (geometry (gjObj w'))).
Proof.
  split.
  - apply (proj1 (C8_unparsable_coordinate_opens_ring
                    ["boundary"; "1"; "1  0.0  0.0"]
                    (mkWorld (mkGjObj (Polygon [[(zero, zero)]])
                                      (Some "boundary")) [])
                    "2  1.0  north"
                    ltac:(vm_compute; reflexivity)
                    ltac:(discriminate) ltac:(discriminate))
             "2" "1.0" "north").
    + vm_compute; reflexivity.
    + vm_compute; reflexivity.
  - apply (proj2 (C8_unparsable_coordinate_opens_ring
                    ["boundary"; "1"; "1  0.0  0.0"]
                    (mkWorld (mkGjObj (Polygon [[(zero, zero)]])
                                      (Some "boundary")) [])
                    "2"
                    ltac:(vm_compute; reflexivity)
                    ltac:(discriminate) ltac:(discriminate))).
    vm_compute. lia.
Defined.

(** *** C9: what [readCoordinatePair] accepts *)

(** C9, as stated, fails: the source rejects a piece only when it parses
    to NaN, and ["Infinity"] parses to an infinite Number, which is not
    NaN; the line is accepted and an infinite longitude is pushed. *)
Lemma C9_infinity_accepted :
  isFinite (parseFloat "Infinity") = false
  /\ readCoordinatePair "1  Infinity  0" oneOpenRing
     = Normal true
         (mkWorld
            (mkGjObj (Polygon [[(S754_infinity false, zero)]])
                     (Some "boundary")) [])
  /\ ~ (forall line w w',
           readCoordinatePair line w = Normal true w' ->
           exists t0 t1 t2,
             split line 3 = [t0; t1; t2]
             /\ isFinite (parseFloat t1) = true
             /\ isFinite (parseFloat t2) = true).
Proof.
  assert (R : readCoordinatePair "1  Infinity  0" oneOpenRing
              = Normal true
                  (mkWorld
                     (mkGjObj (Polygon [[(S754_infinity false, zero)]])
                              (Some "boundary")) []))
    by (vm_compute; reflexivity).
  split; [reflexivity|]. split; [exact R|].
  intros H. destruct (H _ _ _ R) as [t0 [t1 [t2 [S [F1 _]]]]].
  vm_compute in S. inversion S; subst. vm_compute in F1. discriminate.
Qed.

(** C9, amended: [readCoordinatePair] returns [true] only if the line,
    split on runs of two or more spaces, has three pieces and the second
    and the third both parse to a Number that is not NaN (an infinite one
    included); it has then pushed that pair onto the current ring.  For
    every line with fewer than three pieces, or with a second or third
    piece that parses to NaN, it returns [false] and leaves the object
    unchanged. *)
Theorem C9_pair_read_iff_not_NaN :
  forall line w,
    (forall w',
        readCoordinatePair line w = Normal true w' ->
        exists t0 t1 t2,
          split line 3 = [t0; t1; t2]
          /\ isNaN (parseFloat t1) = false
          /\ isNaN (parseFloat t2) = false
          /\ pushPosition (parseFloat t1, parseFloat t2) w = Normal tt w')
    /\ ((List.length (split line 3) < 3)%nat
        \/ (exists t0 t1 t2,
               split line 3 = [t0; t1; t2]
               /\ isNaN (parseFloat t1) || isNaN (parseFloat t2) = true) ->
        exists w',
          readCoordinatePair line w = Normal false w'
          /\ gjObj w' = gjObj w).
Proof.
  intros line w. unfold readCoordinatePair.
  pose proof (split_length line 3) as Hlim. split.
  - intros w'.
    destruct (split line 3) as [|t0 [|t1 [|t2 [|t3 ts]]]];
      try (unfold ret; discriminate);
      [|simpl in Hlim; lia].
    destruct (isNaN (parseFloat t1) || isNaN (parseFloat t2)) eqn:N;
      [discriminate|].
    apply orb_false_iff in N. destruct N as [N1 N2].
    unfold bind, ret.
    destruct (pushPosition (parseFloat t1, parseFloat t2) w) as [[] v|v] eqn:P;
      [|discriminate].
    intros H. inversion H; subst. exists t0, t1, t2. auto.
  - intros [L|[t0 [t1 [t2 [S N]]]]].
    + destruct (split line 3) as [|t0 [|t1 [|t2 ts]]];
        try (eexists; split; reflexivity); simpl in L; lia.
    + rewrite S, N. eexists. split; reflexivity.
Qed.

Lemma C9_pair_read_iff_not_NaN_witness :
  (exists t0 t1 t2,
      split "1  0.5  -2e3" 3 = [t0; t1; t2]
      /\ isNaN (parseFloat t1) = false
      /\ isNaN (parseFloat t2) = false
      /\ pushPosition (parseFloat t1, parseFloat t2) oneOpenRing
         = Normal tt
             (mkWorld
                (mkGjObj
                   (Polygon [[(parseFloat "0.5", parseFloat "-2e3")]])
                   (Some "boundary")) []))
  /\ (exists w',
         readCoordinatePair "1  0.5  east" oneOpenRing = Normal false w'
         /\ gjObj w' = gjObj oneOpenRing).
Proof.
  split.
  - apply (proj1 (C9_pair_read_iff_not_NaN "1  0.5  -2e3" oneOpenRing)).
    vm_compute; reflexivity.
  - apply (proj2 (C9_pair_read_iff_not_NaN "1  0.5  east" oneOpenRing)).
    right. exists "1", "0.5", "east". split; vm_compute; reflexivity.
Defined.

(** *** C10: an empty line after a ring *)

(** C10: [endExaminer] does not reject an empty line.  It is not the end
    marker and does not start with the subtract marker, so it is handled
    as any other line: the examiner returned is [polygonExaminer], not
    [null]; a Polygon with rings [rings] becomes the MultiPolygon
    [[rings; [[]]]], and a MultiPolygon gets one more polygon, of one empty
    ring; the name is kept and nothing is written to the console. *)
Theorem C10_empty_line_opens_polygon :
  forall w,
    call EndExaminer EmptyString w
    = Normal (Some PolygonExaminer)
        (mkWorld
           (mkGjObj
              match geometry (gjObj w) with
              | Polygon rings => MultiPolygon [rings; [[]]]
              | MultiPolygon polys => MultiPolygon (polys ++ [[[]]])
              end
              (properties_name (gjObj w)))
           (console w))
    /\ (forall rings,
           geometry (gjObj w) = Polygon rings ->
           exists w',
             call EndExaminer EmptyString w = Normal (Some PolygonExaminer) w'
             /\ geometry (gjObj w') = MultiPolygon [rings; [[]]])
    /\ (forall polys,
           geometry (gjObj w) = MultiPolygon polys ->
           exists w',
             call EndExaminer EmptyString w = Normal (Some PolygonExaminer) w'
             /\ geometry (gjObj w') = MultiPolygon (polys ++ [[[]]])).
Proof.
  intros w.
  assert (C : call EndExaminer EmptyString w
              = Normal (Some PolygonExaminer)
                  (mkWorld
                     (mkGjObj
                        match geometry (gjObj w) with
                        | Polygon rings => MultiPolygon [rings; [[]]]
                        | MultiPolygon polys => MultiPolygon (polys ++ [[[]]])
                        end
                        (properties_name (gjObj w)))
                     (console w))).
  { simpl. unfold endExaminer, bind, ret. simpl.
    destruct (geometry (gjObj w)); reflexivity. }
  split; [exact C|]. split.
  - intros rings G. eexists. split; [exact C|]. simpl. now rewrite G.
  - intros polys G. eexists. split; [exact C|]. simpl. now rewrite G.
Qed.

(** ** Further properties *)

(** *** What [readCoordinatePair] does, by [pairOf] *)

Lemma pairOf_END : pairOf END = None.
Proof. reflexivity. Qed.

Lemma pairOf_empty : pairOf EmptyString = None.
Proof. reflexivity. Qed.

Lemma pairOf_some_not_END (line : string) (pos : Position) :
  pairOf line = Some pos -> String.eqb line END = false.
Proof.
  intros H. destruct (String.eqb line END) eqn:E; [|reflexivity].
  apply String.eqb_eq in E. subst. discriminate.
Qed.

Lemma pairOf_numeric (line : string) (pos : Position) :
  pairOf line = Some pos -> numeric pos.
Proof.
  unfold pairOf.
  destruct (split line 3) as [|t0 [|t1 [|t2 ts]]]; try discriminate.
  destruct (isNaN (parseFloat t1) || isNaN (parseFloat t2)) eqn:N;
    [discriminate|].
  intros H. inversion H; subst.
  apply orb_false_iff in N. exact N.
Qed.

Lemma readCoordinatePair_some (line : string) (pos : Position) (w : World) :
  pairOf line = Some pos ->
  readCoordinatePair line w = (pushPosition pos ;;; ret true) w.
Proof.
  unfold pairOf, readCoordinatePair.
  destruct (split line 3) as [|t0 [|t1 [|t2 ts]]]; try discriminate.
  destruct (isNaN (parseFloat t1) || isNaN (parseFloat t2));
    [discriminate|].
  intros H. inversion H; subst. reflexivity.
Qed.

Lemma readCoordinatePair_none (line : string) (w : World) :
  pairOf line = None ->
  readCoordinatePair line w
  = Normal false (mkWorld (gjObj w) (console w ++ diagnosticsOf line)).
Proof.
  unfold pairOf, readCoordinatePair, diagnosticsOf.
  assert (E : mkWorld (gjObj w) (console w ++ []) = w)
    by (destruct w; simpl; now rewrite app_nil_r).
  destruct (split line 3) as [|t0 [|t1 [|t2 ts]]];
    try (intros _; unfold ret; now rewrite E).
  destruct (isNaN (parseFloat t1) || isNaN (parseFloat t2));
    [reflexivity|discriminate].
Qed.

(** *** The ways a call changes the geometry *)

(** As [transition], with the position pushed tied to the line. *)
Lemma call_cases (ex ex' : Examiner) (line : string) (w w' : World) :
  call ex line w = Normal (Some ex') w' ->
  let g := geometry (gjObj w) in
  let g' := geometry (gjObj w') in
  g' = g
  \/ opened g g'
  \/ (exists pos ring,
         pairOf line = Some pos /\ replaced ring (ring ++ [pos]) g g')
  \/ (exists ring ring',
         closeRing ring = (true, ring') /\ replaced ring ring' g g')
  \/ (exists rings, g = Polygon rings /\ g' = MultiPolygon [rings; [[]]])
  \/ (exists polys,
         g = MultiPolygon polys /\ g' = MultiPolygon (polys ++ [[[]]])).
Proof.
  intros C. cbv zeta.
  assert (Line : forall examiner',
             (isPair <- readCoordinatePair line ;;
              if isPair
              then ret (Some CoordinateExaminer)
              else if truthy line
                   then pushEmptyRing ;;; ret (Some examiner')
                   else fun w => Normal None (consoleError nullInput w)) w
             = Normal (Some ex') w' ->
             opened (geometry (gjObj w)) (geometry (gjObj w'))
             \/ (exists pos ring,
                    pairOf line = Some pos
                    /\ replaced ring (ring ++ [pos])
                         (geometry (gjObj w)) (geometry (gjObj w')))).
  { intros examiner' H. unfold bind at 1 in H.
    destruct (pairOf line) as [pos|] eqn:P.
    - rewrite (readCoordinatePair_some _ _ _ P) in H. unfold bind, ret in H.
      destruct (pushPosition pos w) as [u v|v] eqn:Q; [|discriminate].
      inversion H; subst.
      apply pushPosition_normal in Q. destruct Q as [[ring R] _].
      right. eauto.
    - rewrite (readCoordinatePair_none _ _ P) in H.
      destruct (truthy line); [|discriminate].
      unfold bind, ret in H.
      destruct (pushEmptyRing _) as [u v|v] eqn:Q; [|discriminate].
      inversion H; subst.
      apply pushEmptyRing_normal in Q. destruct Q as [O _].
      left. exact O. }
  destruct ex; simpl in C.
  - unfold fileExaminer in C. destruct (truthy line); [|discriminate].
    inversion C; subst. left. reflexivity.
  - unfold polygonExaminer in C.
    destruct (String.eqb line END).
    + inversion C; subst. left. reflexivity.
    + destruct (Line _ C) as [O|R]; auto.
  - unfold coordinateExaminer in C.
    destruct (String.eqb line END).
    + unfold bind in C.
      destruct (ensureClosingCoordinates w) as [b v|v] eqn:Q; [|discriminate].
      destruct b; [|discriminate]. inversion C; subst.
      apply ensureClosingCoordinates_normal in Q.
      destruct Q as [[ring [ring' [Q R]]] _].
      right; right; right; left. eauto.
    + destruct (Line _ C) as [O|R]; auto.
  - pose proof (call_transition EndExaminer _ _ _ _ C) as T.
    inversion T; subst; auto.
    + right; right; right; right; left. eauto.
    + right; right; right; right; right. eauto.
Qed.

Lemma run_calls (I : Geometry -> Prop) :
  (forall ex ex' l w w',
      call ex l w = Normal (Some ex') w' ->
      I (geometry (gjObj w)) -> I (geometry (gjObj w'))) ->
  forall lines ex w ex' w',
    run lines ex w = Normal (Some ex') w' ->
    I (geometry (gjObj w)) -> I (geometry (gjObj w')).
Proof.
  intros Hstep lines.
  induction lines as [|l rest IH]; intros ex w ex' w'; simpl.
  - intros H. inversion H; subst. auto.
  - destruct (call ex l w) as [[ex1|] w1|w1] eqn:C; try discriminate.
    intros H HI. apply (IH _ _ _ _ H). eauto.
Qed.

(** *** X1: no NaN in the object *)

Lemma closeRing_forall (P : Position -> Prop) (ring ring' : Ring) (b : bool) :
  closeRing ring = (b, ring') -> Forall P ring -> Forall P ring'.
Proof.
  destruct ring as [|p [|p1 [|p2 rest]]];
    try (intros H; inversion H; subst; auto; fail).
  unfold closeRing.
  destruct (fixedDiffer p (last (p :: p1 :: p2 :: rest) p));
    intros H F; inversion H; subst; auto.
  change (Forall P ((p :: p1 :: p2 :: rest) ++ [p])).
  apply Forall_app. split; [exact F|].
  constructor; [|constructor]. now inversion F.
Qed.

Lemma forall_replaced (P : Ring -> Prop) (ring ring' : Ring)
  (g g' : Geometry) :
  replaced ring ring' g g' ->
  (P ring -> P ring') ->
  Forall P (allRings g) -> Forall P (allRings g').
Proof.
  intros R Himp F.
  destruct (allRings_replaced _ _ _ _ R) as [front [E E']].
  rewrite E in F. rewrite E'. apply Forall_app in F. destruct F as [F1 F2].
  apply Forall_app. split; [exact F1|].
  constructor; [|constructor]. apply Himp. now inversion F2.
Qed.

(** X1: no coordinate stored in the object is NaN, at any point of a
    parse, and so in the object returned. *)
Theorem X1_no_NaN_stored :
  forall lines wf,
    readLines lines = Resolved wf ->
    forall ring pos,
      In ring (allRings (geometry (gjObj wf))) -> In pos ring ->
      isNaN (fst pos) = false /\ isNaN (snd pos) = false.
Proof.
  intros lines wf H ring pos Hring Hpos.
  apply eachLine_resolved in H. destruct H as [_ [exf H]].
  assert (F : Forall (Forall numeric) (allRings (geometry (gjObj wf)))).
  { apply (run_calls (fun g => Forall (Forall numeric) (allRings g)))
      with (lines := lines) (ex := FileExaminer) (w := initialWorld)
           (ex' := exf); [|exact H|constructor].
    clear. intros ex ex' l w w' C F.
    destruct (call_cases _ _ _ _ _ C)
      as [E|[O|[[pos [ring [P R]]]|[[ring [ring' [Q R]]]
         |[[rings [E E']]|[polys [E E']]]]]]].
    - now rewrite E.
    - rewrite (allRings_opened _ _ O). apply Forall_app. split; [exact F|].
      constructor; constructor.
    - apply (forall_replaced _ _ _ _ _ R); [|exact F].
      intros Fr. apply Forall_app. split; [exact Fr|].
      constructor; [|constructor]. eapply pairOf_numeric; eassumption.
    - apply (forall_replaced _ _ _ _ _ R); [|exact F].
      eapply closeRing_forall; eassumption.
    - rewrite E in F. rewrite E'. simpl in *.
      apply Forall_app. split; [exact F|]. constructor; constructor.
    - rewrite E in F. rewrite E'. simpl in *. rewrite concat_app.
      apply Forall_app. split; [exact F|]. simpl. constructor; constructor. }
  rewrite Forall_forall in F. specialize (F ring Hring).
  rewrite Forall_forall in F. exact (F pos Hpos).
Qed.

Lemma X1_no_NaN_stored_witness :
  isNaN (fst (one, zero)) = false /\ isNaN (snd (one, zero)) = false.
Proof.
  apply (X1_no_NaN_stored exampleDoubleSpaces
           (mkWorld
              (mkGjObj (Polygon [unitTriangle]) (Some "boundary")) [])
           ltac:(vm_compute; reflexivity)
           unitTriangle (one, zero)).
  - simpl. auto.
  - simpl. auto.
Defined.

(** *** X2: nothing read is lost *)

Lemma extends_refl (r : Ring) : extends r r.
Proof. exists []. now rewrite app_nil_r. Qed.

Lemma extends_trans (r1 r2 r3 : Ring) :
  extends r1 r2 -> extends r2 r3 -> extends r1 r3.
Proof.
  intros [m1 ->] [m2 ->]. exists (m1 ++ m2). now rewrite app_assoc.
Qed.

Lemma closeRing_extends (ring ring' : Ring) (b : bool) :
  closeRing ring = (b, ring') -> extends ring ring'.
Proof.
  destruct ring as [|p [|p1 [|p2 rest]]];
    try (intros H; inversion H; subst; apply extends_refl).
  unfold closeRing.
  destruct (fixedDiffer p (last (p :: p1 :: p2 :: rest) p));
    intros H; inversion H; subst; [now exists [p]|apply extends_refl].
Qed.

Lemma kept_app (A : list Ring) (g g' : Geometry) (t : list Ring) :
  allRings g' = allRings g ++ t -> kept A g -> kept A g'.
Proof.
  intros E K i r H. destruct (K i r H) as [r' [N X]].
  exists r'. split; [|exact X]. rewrite E.
  rewrite nth_error_app1; [exact N|].
  apply nth_error_Some. congruence.
Qed.

Lemma kept_replaced (A : list Ring) (ring ring' : Ring) (g g' : Geometry) :
  replaced ring ring' g g' -> extends ring ring' -> kept A g -> kept A g'.
Proof.
  intros R X K i r H. destruct (K i r H) as [r' [N X']].
  destruct (allRings_replaced _ _ _ _ R) as [front [E E']].
  rewrite E in N. rewrite E'.
  destruct (Nat.lt_ge_cases i (List.length front)) as [L|L].
  - rewrite nth_error_app1 in N by exact L.
    exists r'. split; [|exact X']. now rewrite nth_error_app1.
  - rewrite nth_error_app2 in N by exact L.
    rewrite nth_error_app2 by exact L.
    destruct (i - List.length front)%nat as [|k]; simpl in *.
    + inversion N; subst. exists ring'. split; [reflexivity|].
      eapply extends_trans; eassumption.
    + destruct k; discriminate.
Qed.

Lemma call_kept (A : list Ring) (ex ex' : Examiner) (l : string)
  (w w' : World) :
  call ex l w = Normal (Some ex') w' ->
  kept A (geometry (gjObj w)) -> kept A (geometry (gjObj w')).
Proof.
  intros C K.
  destruct (call_cases _ _ _ _ _ C)
    as [E|[O|[[pos [ring [P R]]]|[[ring [ring' [Q R]]]
       |[[rings [E E']]|[polys [E E']]]]]]].
  - now rewrite E.
  - eapply kept_app; [apply allRings_opened; exact O|exact K].
  - eapply kept_replaced; [exact R|now exists [pos]|exact K].
  - eapply kept_replaced; [exact R| |exact K].
    eapply closeRing_extends; eassumption.
  - apply (kept_app A (geometry (gjObj w)) _ [[]]); [|exact K].
    rewrite E, E'. reflexivity.
  - apply (kept_app A (geometry (gjObj w)) _ [[]]); [|exact K].
    rewrite E, E'. simpl. now rewrite concat_app.
Qed.

(** X2: the parser never drops or alters what it has stored: a ring
    present at some point of a parse is found at the same place (counting
    the rings in order of creation) at every later point, with the same
    positions in the same order, possibly followed by more. *)
Theorem X2_stored_positions_kept :
  forall lines ex w ex' w' i ring,
    run lines ex w = Normal (Some ex') w' ->
    nth_error (allRings (geometry (gjObj w))) i = Some ring ->
    exists ring',
      nth_error (allRings (geometry (gjObj w'))) i = Some ring'
      /\ extends ring ring'.
Proof.
  intros lines ex w ex' w' i ring H N.
  assert (K : kept (allRings (geometry (gjObj w))) (geometry (gjObj w'))).
  { apply (run_calls (kept (allRings (geometry (gjObj w)))))
      with (lines := lines) (ex := ex) (w := w) (ex' := ex');
      [|exact H|].
    - intros e e' l v v'. apply call_kept.
    - intros j r Hj. exists r. split; [exact Hj|apply extends_refl]. }
  exact (K i ring N).
Qed.

Lemma X2_stored_positions_kept_witness :
  exists ring',
    nth_error [unitTriangle; openTriangle] 0 = Some ring'
    /\ extends [(zero, zero); (one, zero)] ring'.
Proof.
  apply (X2_stored_positions_kept
           ["3  1.0  1.0"; "END"; "!2"; "1  0.0  0.0"; "2  1.0  0.0";
            "3  1.0  1.0"]
           CoordinateExaminer
           (mkWorld (mkGjObj (Polygon [[(zero, zero); (one, zero)]])
                             (Some "boundary")) [])
           CoordinateExaminer
           (mkWorld (mkGjObj (Polygon [unitTriangle; openTriangle])
                             (Some "boundary")) [])
           0%nat [(zero, zero); (one, zero)]).
  - vm_compute; reflexivity.
  - reflexivity.
Defined.

(** *** X3: the polygons of a MultiPolygon *)

Lemma tl_snoc {A : Type} (l : list A) (x : A) :
  l <> [] -> tl (l ++ [x]) = tl l ++ [x].
Proof. destruct l; [intros H; now contradiction H|reflexivity]. Qed.

Lemma length_two_not_nil {A : Type} (front : list A) (x : A) :
  (2 <= List.length (front ++ [x]))%nat -> front <> [].
Proof. destruct front; simpl; [lia|discriminate]. Qed.

Lemma multi_snoc (front : list (list Ring)) (poly poly' : list Ring) :
  poly' <> [] ->
  (2 <= List.length (front ++ [poly]))%nat
  /\ Forall (fun p => p <> []) (tl (front ++ [poly])) ->
  (2 <= List.length (front ++ [poly']))%nat
  /\ Forall (fun p => p <> []) (tl (front ++ [poly'])).
Proof.
  intros N [L F]. pose proof (length_two_not_nil _ _ L) as Nf.
  rewrite length_app in *. split; [exact L|].
  rewrite tl_snoc in * by exact Nf.
  apply Forall_app in F. destruct F as [F _].
  apply Forall_app. split; [exact F|]. constructor; [exact N|constructor].
Qed.

(** X3: a MultiPolygon returned by the parser has at least two polygons,
    and each polygon after the first has at least one ring. *)
Theorem X3_multipolygon_shape :
  forall lines wf polys,
    readLines lines = Resolved wf ->
    geometry (gjObj wf) = MultiPolygon polys ->
    (2 <= List.length polys)%nat
    /\ Forall (fun poly => poly <> []) (tl polys).
Proof.
  intros lines wf polys H G.
  apply eachLine_resolved in H. destruct H as [_ [exf H]].
  pose (I := fun g =>
          match g with
          | Polygon _ => True
          | MultiPolygon ps =>
              (2 <= List.length ps)%nat /\ Forall (fun p => p <> []) (tl ps)
          end).
  assert (HI : I (geometry (gjObj wf))).
  { apply (run_calls I) with (lines := lines) (ex := FileExaminer)
      (w := initialWorld) (ex' := exf); [|exact H|exact Logic.I].
    clear. intros ex ex' l w w' C HI.
    destruct (call_cases _ _ _ _ _ C)
      as [E|[O|[[pos [ring [P R]]]|[[ring [ring' [Q R]]]
         |[[rings [E E']]|[polys [E E']]]]]]].
    - now rewrite E.
    - destruct O; simpl in *; [exact Logic.I|].
      apply (multi_snoc front poly); [apply snoc_not_nil|exact HI].
    - destruct R; simpl in *; [exact Logic.I|].
      apply (multi_snoc front (rings ++ [ring]));
        [apply snoc_not_nil|exact HI].
    - destruct R; simpl in *; [exact Logic.I|].
      apply (multi_snoc front (rings ++ [ring]));
        [apply snoc_not_nil|exact HI].
    - rewrite E'. simpl. split; [lia|].
      constructor; [discriminate|constructor].
    - rewrite E in HI. rewrite E'. simpl in *. destruct HI as [L F].
      rewrite length_app. simpl. split; [lia|].
      rewrite tl_snoc by (destruct polys; simpl in L; [lia|discriminate]).
      apply Forall_app. split; [exact F|].
      constructor; [discriminate|constructor]. }
  unfold I in HI. rewrite G in HI. exact HI.
Qed.

Lemma X3_multipolygon_shape_witness :
  (2 <= List.length [[unitTriangle]; [unitTriangle]])%nat
  /\ Forall (fun poly : list Ring => poly <> [])
            (tl [[unitTriangle]; [unitTriangle]]).
Proof.
  apply (X3_multipolygon_shape twoOuterGroups
           (mkWorld
              (mkGjObj (MultiPolygon [[unitTriangle]; [unitTriangle]])
                       (Some "boundary")) [])).
  - vm_compute; reflexivity.
  - reflexivity.
Defined.

(** *** X4: the two ways a parse is rejected *)

Lemma closeRing_false (ring ring' : Ring) :
  closeRing ring = (false, ring') ->
  (List.length ring <= 2)%nat /\ ring' = ring.
Proof.
  destruct ring as [|p [|p1 [|p2 rest]]];
    try (intros H; inversion H; subst; simpl; split; [lia|reflexivity]).
  unfold closeRing.
  destruct (fixedDiffer p (last (p :: p1 :: p2 :: rest) p)); discriminate.
Qed.

Lemma truthy_false (line : string) : truthy line = false -> line = EmptyString.
Proof. destruct line; [reflexivity|discriminate]. Qed.

Lemma afterPairTest_null (line : string) (examiner' : Examiner)
  (w w' : World) :
  afterPairTest line examiner' w = Normal None w' ->
  line = EmptyString /\ w' = consoleError nullInput w.
Proof.
  unfold afterPairTest. destruct line as [|c s].
  - intros H. inversion H; subst. auto.
  - unfold bind at 1.
    destruct (readCoordinatePair (String c s) w) as [[|] v|v];
      try discriminate.
    simpl. unfold bind, ret.
    destruct (pushEmptyRing v) as [u v'|v']; discriminate.
Qed.

Lemma call_null (ex : Examiner) (line : string) (w w' : World) :
  call ex line w = Normal None w' <->
  (line = EmptyString /\ ex <> EndExaminer
   /\ w' = consoleError nullInput w)
  \/ (ex = CoordinateExaminer /\ line = END
      /\ (exists ring,
             currentRing (geometry (gjObj w)) = Some ring
             /\ (List.length ring <= 2)%nat)
      /\ w' = consoleError notValid w).
Proof.
  split.
  - intros C. destruct ex; simpl in C.
    + unfold fileExaminer in C. destruct (truthy line) eqn:T; [discriminate|].
      inversion C; subst. left.
      split; [now apply truthy_false|]. split; [discriminate|reflexivity].
    + unfold polygonExaminer in C.
      destruct (String.eqb line END); [discriminate|].
      apply (afterPairTest_null line CoordinateExaminer) in C.
      left. destruct C as [-> ->].
      split; [reflexivity|]. split; [discriminate|reflexivity].
    + unfold coordinateExaminer in C.
      destruct (String.eqb line END) eqn:E.
      * apply String.eqb_eq in E. subst line. right. unfold bind in C.
        destruct (ensureClosingCoordinates w) as [b v|v] eqn:Q;
          [|discriminate].
        destruct b; [discriminate|]. inversion C; subst.
        apply ensureClosingCoordinates_normal in Q.
        destruct Q as [[ring [ring' [Q R]]] Ev].
        apply closeRing_false in Q. destruct Q as [L ->].
        pose proof (replaced_currentRing _ _ _ _ R) as [Hcur _].
        apply replaced_same in R. rewrite R, setGeometry_same in Ev.
        subst v. repeat split; eauto.
      * apply (afterPairTest_null line PolygonExaminer) in C.
        left. destruct C as [-> ->].
        split; [reflexivity|]. split; [discriminate|reflexivity].
    + unfold endExaminer in C.
      destruct (String.eqb line END); [discriminate|].
      unfold bind, ret in C.
      destruct (startsWithSubtract line).
      * destruct (pushEmptyRing w); discriminate.
      * destruct (geometry (gjObj w)); discriminate.
  - intros [[-> [N ->]]|[-> [-> [[ring [Hcur L]] ->]]]].
    + destruct ex; try reflexivity. now contradiction N.
    + destruct (ensureClosingCoordinates_current w ring Hcur) as [g' [E R]].
      rewrite (closeRing_short ring L) in E, R. cbn [fst snd] in E, R.
      apply replaced_same in R. subst g'. rewrite setGeometry_same in E.
      simpl. unfold coordinateExaminer, bind. simpl. now rewrite E.
Qed.

Lemma eachLine_rejected_inv (lines : list string) :
  forall ex w w',
    eachLine lines ex w = Rejected w' ->
    exists pre line post ex1 w1,
      lines = pre ++ line :: post
      /\ run pre ex w = Normal (Some ex1) w1
      /\ call ex1 line w1 = Normal None w'.
Proof.
  induction lines as [|l rest IH]; intros ex w w'; simpl; [discriminate|].
  destruct (call ex l w) as [[ex1|] w1|w1] eqn:C; try discriminate.
  - destruct rest as [|l' rest']; [discriminate|].
    intros H. destruct (IH _ _ _ H) as [pre [line [post [e [v [E [R N]]]]]]].
    exists (l :: pre), line, post, e, v. rewrite E. simpl. rewrite C. auto.
  - intros H. inversion H; subst. exists [], l, rest, ex, w. auto.
Qed.



(** *** X5: the one way a parse throws *)

Lemma pushPosition_total (pos : Position) (w : World) (ring : Ring) :
  currentRing (geometry (gjObj w)) = Some ring ->
  exists g', pushPosition pos w = Normal tt (setGeometry w g').
Proof.
  intros H. apply currentRing_some in H. unfold pushPosition.
  destruct H as [[front G]|[front [rings G]]]; rewrite G;
    rewrite ?unsnoc_snoc; eauto.
Qed.

Lemma pushPosition_throws (pos : Position) (w w' : World) :
  pushPosition pos w = TypeError w' ->
  currentRing (geometry (gjObj w)) = None /\ w' = w.
Proof.
  destruct (currentRing (geometry (gjObj w))) as [ring|] eqn:Hcur.
  - destruct (pushPosition_total pos w ring Hcur) as [g' ->]. discriminate.
  - unfold pushPosition.
    destruct (geometry (gjObj w)) as [rings|polys].
    + destruct (unsnoc rings) as [[? ?]|]; [discriminate|].
      intros H. inversion H. auto.
    + destruct (unsnoc polys) as [[? poly]|].
      * destruct (unsnoc poly) as [[? ?]|]; [discriminate|].
        intros H. inversion H. auto.
      * intros H. inversion H. auto.
Qed.

Lemma afterPairTest_throws (line : string) (examiner' : Examiner)
  (w w' : World) :
  wellFormed PolygonExaminer (geometry (gjObj w)) ->
  afterPairTest line examiner' w = TypeError w' ->
  currentRing (geometry (gjObj w)) = None
  /\ pairOf line <> None /\ w' = w.
Proof.
  intros W. unfold afterPairTest, bind at 1.
  destruct (pairOf line) as [pos|] eqn:P.
  - rewrite (readCoordinatePair_some _ _ _ P). unfold bind, ret.
    destruct (pushPosition pos w) as [u v|v] eqn:Q; [discriminate|].
    intros H. inversion H; subst.
    apply pushPosition_throws in Q. destruct Q as [Q ->].
    split; [exact Q|]. split; [discriminate|reflexivity].
  - rewrite (readCoordinatePair_none _ _ P).
    destruct (truthy line); [|discriminate].
    unfold bind, ret.
    destruct (pushEmptyRing_total
                (mkWorld (gjObj w) (console w ++ diagnosticsOf line)) W)
      as [g' [E _]].
    rewrite E. discriminate.
Qed.

Lemma call_throws (ex : Examiner) (line : string) (w w' : World) :
  wellFormed ex (geometry (gjObj w)) ->
  call ex line w = TypeError w' ->
  ex = PolygonExaminer /\ geometry (gjObj w) = Polygon []
  /\ pairOf line <> None /\ w' = w.
Proof.
  intros W C.
  assert (W' : wellFormed PolygonExaminer (geometry (gjObj w))).
  { intros [E|M]; [discriminate|]. apply W. now right. }
  destruct ex; simpl in C.
  - unfold fileExaminer in C. destruct (truthy line); discriminate.
  - unfold polygonExaminer in C.
    destruct (String.eqb line END); [discriminate|].
    apply (afterPairTest_throws line CoordinateExaminer _ _ W') in C.
    destruct C as [N [P ->]]. repeat split; auto.
    destruct (geometry (gjObj w)) as [rings|polys] eqn:G.
    + simpl in N. destruct rings as [|r rings]; [reflexivity|].
      destruct (unsnoc (r :: rings)) as [[? ?]|] eqn:U; [discriminate|].
      simpl in U. destruct (unsnoc rings) as [[? ?]|]; discriminate.
    + destruct W' as [ring R]; [right; eauto|]. congruence.
  - destruct W as [ring R]; [now left|]. unfold coordinateExaminer in C.
    destruct (String.eqb line END).
    + unfold bind in C.
      destruct (ensureClosingCoordinates_current w ring R) as [g' [E _]].
      rewrite E in C. destruct (fst (closeRing ring)); discriminate.
    + apply (afterPairTest_throws line PolygonExaminer _ _ W') in C.
      destruct C as [N _]. congruence.
  - unfold endExaminer in C.
    destruct (String.eqb line END); [discriminate|].
    unfold bind, ret in C.
    destruct (startsWithSubtract line).
    + destruct (pushEmptyRing_total w W') as [g' [E _]].
      rewrite E in C. discriminate.
    + destruct (geometry (gjObj w)); discriminate.
Qed.

(** No call returns [fileExaminer]: it is current for the first line
    only. *)
Lemma run_never_file (lines : list string) :
  forall ex w w',
    run lines ex w = Normal (Some FileExaminer) w' ->
    lines = [] /\ ex = FileExaminer.
Proof.
  induction lines as [|l rest IH]; intros ex w w'; simpl.
  - intros H. inversion H. auto.
  - destruct (call ex l w) as [[ex1|] w1|w1] eqn:C; try discriminate.
    intros H. destruct (IH _ _ _ H) as [_ ->].
    apply call_transition in C. inversion C.
Qed.

(** After the name line, [polygonExaminer] never again meets a Polygon
    without a ring. *)
Lemma run_polygon_empty (lines : list string) :
  forall ex w w',
    ex <> FileExaminer ->
    run lines ex w = Normal (Some PolygonExaminer) w' ->
    geometry (gjObj w') = Polygon [] ->
    lines = [].
Proof.
  induction lines as [|l rest IH] using rev_ind; intros ex w w' N H G;
    [reflexivity|].
  exfalso.
  apply run_app_some in H. destruct H as [ex1 [w1 [H1 H2]]].
  cbn [run] in H2.
  destruct (call ex1 l w1) as [[ex2|] w2|w2] eqn:C; try discriminate.
  inversion H2; subst.
  apply call_transition in C. rewrite G in C.
  inversion C as [line g T| |line g g' E S O|line rings O|line polys O
                 | | |
                 | | |line g g' E T O]; subst;
    try (inversion O; match goal with
                      | H : _ ++ [_] = [] |- _ =>
                          now apply snoc_not_nil in H
                      end).
  apply run_never_file in H1. destruct H1 as [_ ->]. now contradiction N.
Qed.

Lemma eachLine_uncaught_inv (lines : list string) :
  forall ex w w',
    eachLine lines ex w = Uncaught w' ->
    exists pre line post ex1 w1,
      lines = pre ++ line :: post
      /\ run pre ex w = Normal (Some ex1) w1
      /\ call ex1 line w1 = TypeError w'.
Proof.
  induction lines as [|l rest IH]; intros ex w w'; simpl; [discriminate|].
  destruct (call ex l w) as [[ex1|] w1|w1] eqn:C; try discriminate.
  - destruct rest as [|l' rest']; [discriminate|].
    intros H. destruct (IH _ _ _ H) as [pre [line [post [e [v [E [R N]]]]]]].
    exists (l :: pre), line, post, e, v. rewrite E. simpl. rewrite C. auto.
  - intros H. inversion H; subst. exists [], l, rest, ex, w. auto.
Qed.



(** *** X6: the name *)

Lemma setGeometry_name (w v : World) (g : Geometry) :
  v = setGeometry w g ->
  properties_name (gjObj v) = properties_name (gjObj w).
Proof. intros ->. reflexivity. Qed.

Lemma afterPairTest_name (line : string) (examiner' ex' : Examiner)
  (w w' : World) :
  afterPairTest line examiner' w = Normal (Some ex') w' ->
  properties_name (gjObj w') = properties_name (gjObj w).
Proof.
  unfold afterPairTest, bind at 1.
  destruct (readCoordinatePair line w) as [b v|v] eqn:R; [|discriminate].
  apply readCoordinatePair_normal in R.
  destruct R as [[-> [pos [ring [_ E]]]]|[-> G]].
  - unfold ret. intros H. inversion H; subst.
    now apply setGeometry_name in E.
  - destruct (truthy line); [|discriminate]. unfold bind, ret.
    destruct (pushEmptyRing v) as [u v'|v'] eqn:P; [|discriminate].
    intros H. inversion H; subst.
    apply pushEmptyRing_normal in P. destruct P as [_ E].
    apply setGeometry_name in E. now rewrite E, G.
Qed.

Lemma call_name (ex ex' : Examiner) (line : string) (w w' : World) :
  ex <> FileExaminer ->
  call ex line w = Normal (Some ex') w' ->
  properties_name (gjObj w') = properties_name (gjObj w).
Proof.
  intros N C. destruct ex; simpl in C.
  - now contradiction N.
  - unfold polygonExaminer in C.
    destruct (String.eqb line END); [now inversion C|].
    eapply afterPairTest_name; exact C.
  - unfold coordinateExaminer in C.
    destruct (String.eqb line END).
    + unfold bind in C.
      destruct (ensureClosingCoordinates w) as [b v|v] eqn:Q; [|discriminate].
      destruct b; [|discriminate]. inversion C; subst.
      apply ensureClosingCoordinates_normal in Q. destruct Q as [_ E].
      now apply setGeometry_name in E.
    + eapply afterPairTest_name; exact C.
  - unfold endExaminer in C.
    destruct (String.eqb line END); [now inversion C|].
    unfold bind, ret in C. destruct (startsWithSubtract line).
    + destruct (pushEmptyRing w) as [u v|v] eqn:P; [|discriminate].
      inversion C; subst.
      apply pushEmptyRing_normal in P. destruct P as [_ E].
      now apply setGeometry_name in E.
    + destruct (geometry (gjObj w)); inversion C; reflexivity.
Qed.

Lemma run_name (lines : list string) :
  forall ex w ex' w',
    ex <> FileExaminer ->
    run lines ex w = Normal (Some ex') w' ->
    properties_name (gjObj w') = properties_name (gjObj w).
Proof.
  induction lines as [|l rest IH]; intros ex w ex' w' N; simpl.
  - intros H. now inversion H.
  - destruct (call ex l w) as [[ex1|] w1|w1] eqn:C; try discriminate.
    intros H.
    assert (N1 : ex1 <> FileExaminer).
    { intros ->. apply call_transition in C. inversion C. }
    rewrite (IH _ _ _ _ N1 H). exact (call_name _ _ _ _ _ N C).
Qed.

(** X6: the object returned carries the first line, whatever it is, as
    its name: the name is set from the first line and no later line
    changes it. *)
Theorem X6_name_is_first_line :
  forall name rest wf,
    readLines (name :: rest) = Resolved wf ->
    properties_name (gjObj wf) = Some name /\ name <> EmptyString.
Proof.
  intros name rest wf H.
  apply eachLine_resolved in H. destruct H as [_ [exf H]].
  cbn [run call] in H. unfold fileExaminer in H.
  destruct (truthy name) eqn:T; [|discriminate].
  split.
  - rewrite (run_name rest PolygonExaminer _ _ _ ltac:(discriminate) H).
    reflexivity.
  - intros ->. discriminate.
Qed.

Lemma X6_name_is_first_line_witness :
  properties_name
    (gjObj (mkWorld (mkGjObj (Polygon []) (Some "END")) []))
  = Some "END"
  /\ "END" <> EmptyString.
Proof.
  apply (X6_name_is_first_line "END" ["END"]
           (mkWorld (mkGjObj (Polygon []) (Some "END")) [])).
  vm_compute; reflexivity.
Defined.

(** *** X7 and X8: the layout of a coordinate line *)

Lemma splitWalk_noDoubleSpace (s : string) :
  forall tok,
    noDoubleSpace s = true ->
    splitWalk s false tok = [revApp tok s].
Proof.
  induction s as [|c rest IH]; intros tok; simpl.
  - reflexivity.
  - intros H. apply andb_true_iff in H. destruct H as [H1 H2].
    apply negb_true_iff in H1. rewrite H1. now rewrite IH.
Qed.

(** X7: a line without two spaces in a row is never read as a coordinate
    pair, whatever it holds: the call returns [false] and leaves the object
    and the console as they are.  Columns one space or one tab apart are
    not recognised. *)
Theorem X7_single_spaced_line_is_no_pair :
  forall line w,
    noDoubleSpace line = true ->
    split line 3 = [line]
    /\ readCoordinatePair line w = Normal false w.
Proof.
  intros line w H.
  assert (S : split line 3 = [line]).
  { unfold split. now rewrite (splitWalk_noDoubleSpace line [] H). }
  split; [exact S|]. unfold readCoordinatePair. now rewrite S.
Qed.

Lemma X7_single_spaced_line_is_no_pair_witness :
  split " 1 0.0 0.0" 3 = [" 1 0.0 0.0"]
  /\ readCoordinatePair " 1 0.0 0.0" oneOpenRing = Normal false oneOpenRing.
Proof.
  apply (X7_single_spaced_line_is_no_pair " 1 0.0 0.0" oneOpenRing).
  reflexivity.
Defined.

Lemma append_empty (s : string) : (s ++ EmptyString)%string = s.
Proof. induction s as [|c s IH]; simpl; [reflexivity|now rewrite IH]. Qed.

Lemma revApp_token (t : string) :
  forall tok acc,
    revApp (rev (list_ascii_of_string t) ++ tok) acc
    = revApp tok (t ++ acc)%string.
Proof.
  induction t as [|c t IH]; intros tok acc; simpl.
  - reflexivity.
  - rewrite <- app_assoc. simpl. now rewrite IH.
Qed.

Lemma splitWalk_token (t : string) :
  noSpace t = true ->
  forall tok rest,
    splitWalk (t ++ rest) false tok
    = splitWalk rest false (rev (list_ascii_of_string t) ++ tok).
Proof.
  induction t as [|c t IH]; simpl; intros H tok rest.
  - reflexivity.
  - apply andb_true_iff in H. destruct H as [H1 H2].
    apply negb_true_iff in H1. rewrite H1. simpl.
    rewrite (IH H2). now rewrite <- app_assoc.
Qed.

Lemma splitWalk_in_separator (k : nat) (r : string) :
  startsWithSpace r = false ->
  splitWalk (spaces k ++ r) true [] = splitWalk r false [].
Proof.
  intros H. induction k as [|k IH]; simpl.
  - destruct r as [|c r]; [reflexivity|]. simpl in *. now rewrite H.
  - exact IH.
Qed.

Lemma splitWalk_separator (n : nat) (r : string) (tok : list ascii) :
  startsWithSpace r = false ->
  splitWalk (spaces (S (S n)) ++ r) false tok
  = revApp tok EmptyString :: splitWalk r false [].
Proof.
  intros H. simpl. f_equal. now apply (splitWalk_in_separator n).
Qed.

Lemma startsWithSpace_token (t rest : string) :
  noSpace t = true -> t <> EmptyString ->
  startsWithSpace (t ++ rest) = false.
Proof.
  destruct t as [|c t]; simpl; [intros _ H; now contradiction H|].
  intros H _. apply andb_true_iff in H. destruct H as [H _].
  now apply negb_true_iff in H.
Qed.

Lemma startsWithSpace_noSpace (t : string) :
  noSpace t = true -> startsWithSpace t = false.
Proof.
  destruct t as [|c t]; simpl; [reflexivity|].
  intros H. apply andb_true_iff in H. destruct H as [H _].
  now apply negb_true_iff in H.
Qed.

(** X8: a line made of a first column without spaces (possibly empty, as
    when the line starts with spaces), a run of two or more spaces, a
    longitude, another such run and a latitude (both without spaces) splits
    into exactly these three columns, whatever the lengths of the runs; the
    first column is ignored, and when both numbers parse the call pushes
    [(parseFloat lon, parseFloat lat)], the longitude first. *)
Theorem X8_columns_of_a_coordinate_line :
  forall (index lon lat : string) (n1 n2 : nat) (w : World),
    noSpace index = true -> noSpace lon = true -> noSpace lat = true ->
    lon <> EmptyString ->
    let line :=
      (index ++ spaces (S (S n1)) ++ lon ++ spaces (S (S n2)) ++ lat)%string in
    split line 3 = [index; lon; lat]
    /\ (isNaN (parseFloat lon) || isNaN (parseFloat lat) = false ->
        pairOf line = Some (parseFloat lon, parseFloat lat)
        /\ readCoordinatePair line w
           = (pushPosition (parseFloat lon, parseFloat lat) ;;; ret true) w).
Proof.
  intros index lon lat n1 n2 w Hi Hlon Hlat Hne line.
  assert (S : split line 3 = [index; lon; lat]).
  { unfold split, line.
    rewrite (splitWalk_token index Hi).
    rewrite splitWalk_separator
      by (apply startsWithSpace_token; assumption).
    rewrite (splitWalk_token lon Hlon).
    rewrite splitWalk_separator by now apply startsWithSpace_noSpace.
    rewrite <- (append_empty lat) at 1.
    rewrite (splitWalk_token lat Hlat). simpl.
    rewrite !revApp_token. simpl. now rewrite !append_empty. }
  split; [exact S|]. intros N.
  assert (P : pairOf line = Some (parseFloat lon, parseFloat lat)).
  { unfold pairOf. now rewrite S, N. }
  split; [exact P|]. now apply readCoordinatePair_some.
Qed.

Lemma X8_columns_of_a_coordinate_line_witness :
  split "   0.1446763E+03   -0.3825659E+02" 3
  = [EmptyString; "0.1446763E+03"; "-0.3825659E+02"]
  /\ pairOf "   0.1446763E+03   -0.3825659E+02"
     = Some (parseFloat "0.1446763E+03", parseFloat "-0.3825659E+02").
Proof.
  destruct (X8_columns_of_a_coordinate_line
              EmptyString "0.1446763E+03" "-0.3825659E+02" 1 1 oneOpenRing
              eq_refl eq_refl eq_refl ltac:(discriminate))
    as [S H].
  split; [exact S|].
  exact (proj1 (H ltac:(vm_compute; reflexivity))).
Defined.

(** *** X9: files in the expected format *)

Lemma pushPosition_build (pos : Position) (front : list (list Ring))
  (rings : list Ring) (ring : Ring) (name : option string)
  (log : list string) :
  pushPosition pos (worldOf front (rings ++ [ring]) name log)
  = Normal tt (worldOf front (rings ++ [ring ++ [pos]]) name log).
Proof.
  unfold pushPosition, worldOf. destruct front as [|f fs]; simpl.
  - now rewrite unsnoc_snoc.
  - change (f :: fs ++ [rings ++ [ring]])
      with ((f :: fs) ++ [rings ++ [ring]]).
    now rewrite !unsnoc_snoc.
Qed.

Lemma pushEmptyRing_build (front : list (list Ring)) (rings : list Ring)
  (name : option string) (log : list string) :
  pushEmptyRing (worldOf front rings name log)
  = Normal tt (worldOf front (rings ++ [[]]) name log).
Proof.
  unfold pushEmptyRing, worldOf. destruct front as [|f fs]; simpl.
  - reflexivity.
  - change (f :: fs ++ [rings]) with ((f :: fs) ++ [rings]).
    now rewrite unsnoc_snoc.
Qed.

Lemma ensureClosingCoordinates_build (front : list (list Ring))
  (rings : list Ring) (ring : Ring) (name : option string)
  (log : list string) :
  ensureClosingCoordinates (worldOf front (rings ++ [ring]) name log)
  = Normal (fst (closeRing ring))
      (worldOf front (rings ++ [snd (closeRing ring)]) name log).
Proof.
  unfold ensureClosingCoordinates, worldOf.
  destruct front as [|f fs]; simpl.
  - rewrite unsnoc_snoc. now destruct (closeRing ring).
  - change (f :: fs ++ [rings ++ [ring]])
      with ((f :: fs) ++ [rings ++ [ring]]).
    rewrite !unsnoc_snoc. now destruct (closeRing ring).
Qed.

Lemma call_pair_build (ex : Examiner) (line : string) (pos : Position)
  (front : list (list Ring)) (rings : list Ring) (ring : Ring)
  (name : option string) (log : list string) :
  ex = PolygonExaminer \/ ex = CoordinateExaminer ->
  pairOf line = Some pos ->
  call ex line (worldOf front (rings ++ [ring]) name log)
  = Normal (Some CoordinateExaminer)
      (worldOf front (rings ++ [ring ++ [pos]]) name log).
Proof.
  intros [-> | ->] P; simpl;
    unfold polygonExaminer, coordinateExaminer;
    rewrite (pairOf_some_not_END _ _ P); unfold bind at 1;
    rewrite (readCoordinatePair_some _ _ _ P); unfold bind, ret;
    now rewrite pushPosition_build.
Qed.

Lemma run_coordinates (coords : list string) :
  forall ps ring front rings name log,
    positionsOf coords = Some ps ->
    run coords CoordinateExaminer (worldOf front (rings ++ [ring]) name log)
    = Normal (Some CoordinateExaminer)
        (worldOf front (rings ++ [ring ++ ps]) name log).
Proof.
  induction coords as [|l rest IH]; intros ps ring front rings name log;
    simpl positionsOf.
  - intros H. inversion H; subst. now rewrite app_nil_r.
  - destruct (pairOf l) as [pos|] eqn:P; [|discriminate].
    destruct (positionsOf rest) as [ps'|] eqn:R; [|discriminate].
    intros H. inversion H; subst. cbn [run].
    rewrite (call_pair_build CoordinateExaminer l pos) by auto.
    rewrite (IH ps' (ring ++ [pos])) by reflexivity.
    now rewrite <- app_assoc.
Qed.

(** The coordinate lines of a section and its end marker, from the empty
    ring its header opened. *)
Lemma run_section_body (coords : list string) (ring : Ring) (ex : Examiner)
  (front : list (list Ring)) (rings : list Ring) (name : option string)
  (log : list string) :
  ex = PolygonExaminer \/ ex = CoordinateExaminer ->
  sectionRing coords = Some ring ->
  forall more,
    run ((coords ++ [END]) ++ more) ex (worldOf front (rings ++ [[]]) name log)
    = run more EndExaminer (worldOf front (rings ++ [ring]) name log).
Proof.
  intros Hex S more. unfold sectionRing in S.
  destruct (positionsOf coords) as [ps|] eqn:P; [|discriminate].
  destruct (closeRing ps) as [[|] ring'] eqn:C; [|discriminate].
  inversion S; subst ring'.
  destruct coords as [|l rest].
  { simpl in P. inversion P; subst. discriminate. }
  simpl in P.
  destruct (pairOf l) as [pos|] eqn:Pl; [|discriminate].
  destruct (positionsOf rest) as [ps'|] eqn:R; [|discriminate].
  inversion P; subst ps.
  replace (((l :: rest) ++ [END]) ++ more) with (l :: rest ++ END :: more)
    by (simpl; now rewrite <- app_assoc).
  cbn [run].
  pose proof (call_pair_build ex l pos front rings [] name log Hex Pl) as E1.
  pose proof (run_coordinates rest ps' ([] ++ [pos]) front rings name log R)
    as E2.
  pose proof (ensureClosingCoordinates_build front rings (pos :: ps') name log)
    as E3.
  unfold Ring in *. rewrite E1, run_app, E2.
  cbn [run call]. unfold coordinateExaminer.
  replace (String.eqb END END) with true by reflexivity.
  unfold bind.
  change (([] ++ [pos]) ++ ps') with (pos :: ps'). rewrite E3, C.
  reflexivity.
Qed.

Lemma call_hole_build (header : string) (front : list (list Ring))
  (rings : list Ring) (name : option string) (log : list string) :
  String.eqb header END = false ->
  startsWithSubtract header = true ->
  call EndExaminer header (worldOf front rings name log)
  = Normal (Some PolygonExaminer) (worldOf front (rings ++ [[]]) name log).
Proof.
  intros E S. simpl. unfold endExaminer. rewrite E, S.
  unfold bind, ret. now rewrite pushEmptyRing_build.
Qed.

Lemma call_outer_build (header : string) (front : list (list Ring))
  (rings : list Ring) (name : option string) (log : list string) :
  String.eqb header END = false ->
  startsWithSubtract header = false ->
  call EndExaminer header (worldOf front rings name log)
  = Normal (Some PolygonExaminer)
      (worldOf (front ++ [rings]) ([] ++ [[]]) name log).
Proof.
  intros E S. simpl. unfold endExaminer. rewrite E, S.
  unfold bind, ret, worldOf. destruct front as [|f fs]; reflexivity.
Qed.

Lemma section_lines (header : string) (coords : list string)
  (rest : list FileSection) :
  flat_map sectionLines ((header, coords) :: rest) ++ [END]
  = header :: (coords ++ [END]) ++ (flat_map sectionLines rest ++ [END]).
Proof.
  simpl. unfold sectionLines at 1. simpl. f_equal.
  now rewrite <- !app_assoc.
Qed.

Lemma run_later_sections (sections : list FileSection) :
  forall front rings g name log,
    laterSections front rings sections = Some g ->
    run (flat_map sectionLines sections ++ [END]) EndExaminer
        (worldOf front rings name log)
    = Normal (Some EndExaminer) (mkWorld (mkGjObj g name) log).
Proof.
  induction sections as [|[header coords] rest IH];
    intros front rings g name log; simpl laterSections.
  - intros H. inversion H; subst. reflexivity.
  - destruct (String.eqb header END) eqn:E; [discriminate|].
    destruct (sectionRing coords) as [ring|] eqn:S; [|discriminate].
    rewrite section_lines. cbn [run].
    destruct (startsWithSubtract header) eqn:Sub; intros H.
    + rewrite (call_hole_build header front rings name log E Sub).
      pose proof (run_section_body coords ring PolygonExaminer front rings
                    name log (or_introl eq_refl) S
                    (flat_map sectionLines rest ++ [END])) as B.
      unfold Ring in *. rewrite B. now apply IH.
    + rewrite (call_outer_build header front rings name log E Sub).
      pose proof (run_section_body coords ring PolygonExaminer
                    (front ++ [rings]) [] name log (or_introl eq_refl) S
                    (flat_map sectionLines rest ++ [END])) as B.
      unfold Ring in *. rewrite B. now apply IH.
Qed.

Lemma run_expected_format (name : string) (sections : list FileSection)
  (g : Geometry) :
  truthy name = true ->
  describedGeometry sections = Some g ->
  run (fileLines name sections) FileExaminer initialWorld
  = Normal (Some EndExaminer)
      (mkWorld (mkGjObj g (Some name))
         match sections with
         | [] => []
         | (header, _) :: _ => diagnosticsOf header
         end).
Proof.
  intros T D. unfold fileLines. cbn [run call].
  unfold fileExaminer. rewrite T.
  change (setName initialWorld name) with (worldOf [] [] (Some name) []).
  destruct sections as [|[header coords] rest]; simpl in D.
  - inversion D; subst. reflexivity.
  - destruct (String.eqb header END) eqn:E; [discriminate|].
    destruct (truthy header) eqn:Th; [|discriminate]. simpl in D.
    destruct (pairOf header) eqn:P; [discriminate|].
    destruct (sectionRing coords) as [ring|] eqn:S; [|discriminate].
    rewrite section_lines. cbn [run call]. unfold polygonExaminer. rewrite E. unfold bind at 1.
    rewrite (readCoordinatePair_none _ _ P), Th.
    change (mkWorld (gjObj (worldOf [] [] (Some name) []))
              (console (worldOf [] [] (Some name) []) ++ diagnosticsOf header))
      with (worldOf [] [] (Some name) (diagnosticsOf header)).
    unfold bind, ret. rewrite pushEmptyRing_build.
    pose proof (run_section_body coords ring CoordinateExaminer [] []
                  (Some name) (diagnosticsOf header) (or_intror eq_refl) S
                  (flat_map sectionLines rest ++ [END])) as B.
    unfold Ring in *. rewrite B. now apply run_later_sections.
Qed.

(** X9: on every file in the expected format (a non-empty name line;
    sections made of a header line, three or more coordinate lines and an
    end marker; a final end marker; the first header non-empty and not a
    coordinate pair) the parse succeeds and returns the geometry the file
    describes: one ring per section, holding the positions of its
    coordinate lines in order, closed by [closeRing]; a section whose
    header starts with the subtract marker adds its ring to the current
    polygon and any other later section starts a new polygon; the result is
    a Polygon when there is a single polygon and a MultiPolygon otherwise.
    The name is the first line, and nothing is written to the console
    beyond what the test of the first header writes. *)
Theorem X9_expected_format_parsed :
  forall name sections g,
    truthy name = true ->
    describedGeometry sections = Some g ->
    readLines (fileLines name sections)
    = Resolved
        (mkWorld (mkGjObj g (Some name))
           match sections with
           | [] => []
           | (header, _) :: _ => diagnosticsOf header
           end).
Proof.
  intros name sections g T D.
  apply eachLine_resolved. split; [discriminate|].
  exists EndExaminer. now apply run_expected_format.
Qed.

Lemma X9_expected_format_parsed_witness :
  readLines (fileLines "boundary" ringWithHole)
  = Resolved
      (mkWorld
         (mkGjObj
            (Polygon
               [[(zero, zero); (one, zero); (one, one); (zero, zero)];
                [(parseFloat "0.2", parseFloat "0.2");
                 (parseFloat "0.5", parseFloat "0.2");
                 (parseFloat "0.5", parseFloat "0.5");
                 (parseFloat "0.2", parseFloat "0.2")]])
            (Some "boundary"))
         (diagnosticsOf "1")).
Proof.
  apply (X9_expected_format_parsed "boundary" ringWithHole).
  - reflexivity.
  - vm_compute; reflexivity.
Defined.

(** *** X10 and X11: the script as a whole *)

(** X10: run on an existing file in the expected format, the script writes
    one line to standard output, the serialisation of the Feature with the
    geometry the file describes and the first line as its name, and ends
    normally; the only lines on standard error are the ones the test of
    the first header writes. *)
Theorem X10_script_prints_described_feature :
  forall (stringify : GjObj -> string) (existsSync : string -> bool)
         (linesOf : string -> list string) (uncaughtReport : list string)
         (polyFilePath name : string) (sections : list FileSection)
         (g : Geometry),
    truthy polyFilePath = true ->
    existsSync polyFilePath = true ->
    linesOf polyFilePath = fileLines name sections ->
    truthy name = true ->
    describedGeometry sections = Some g ->
    main stringify existsSync linesOf uncaughtReport (Some polyFilePath)
    = mkProcess [stringify (mkGjObj g (Some name))]
        match sections with
        | [] => []
        | (header, _) :: _ => diagnosticsOf header
        end
        (Exit 0).
Proof.
  intros stringify existsSync linesOf report path name sections g
    Tp Ex L Tn D.
  unfold main. rewrite Tp, Ex, L.
  assert (R : readLines (fileLines name sections)
              = Resolved
                  (mkWorld (mkGjObj g (Some name))
                     match sections with
                     | [] => []
                     | (header, _) :: _ => diagnosticsOf header
                     end)).
  { apply eachLine_resolved. split; [discriminate|].
    exists EndExaminer. now apply run_expected_format. }
  now rewrite R.
Qed.

Lemma X10_script_prints_described_feature_witness :
  main (fun obj => match properties_name obj with
                   | Some n => n
                   | None => EmptyString
                   end)
       (fun _ => true) (fun _ => fileLines "boundary" ringWithHole)
       ["TypeError"] (Some "shuna.poly")
  = mkProcess ["boundary"] [] (Exit 0).
Proof.
  apply (X10_script_prints_described_feature
           (fun obj => match properties_name obj with
                       | Some n => n
                       | None => EmptyString
                       end)
           (fun _ => true) (fun _ => fileLines "boundary" ringWithHole)
           ["TypeError"]
           "shuna.poly" "boundary" ringWithHole
           (Polygon
              [[(zero, zero); (one, zero); (one, one); (zero, zero)];
               [(parseFloat "0.2", parseFloat "0.2");
                (parseFloat "0.5", parseFloat "0.2");
                (parseFloat "0.5", parseFloat "0.5");
                (parseFloat "0.2", parseFloat "0.2")]])).
  - reflexivity.
  - reflexivity.
  - reflexivity.
  - reflexivity.
  - vm_compute; reflexivity.
Defined.

(** A [TypeError] escapes only when the line after the name is a
    coordinate pair; the world is then the initial one with the name. *)
Lemma readLines_uncaught (lines : list string) (w' : World) :
  readLines lines = Uncaught w' ->
  exists name line rest,
    lines = name :: line :: rest
    /\ truthy name = true
    /\ pairOf line <> None
    /\ w' = setName initialWorld name.
Proof.
  intros H. apply eachLine_uncaught_inv in H.
  destruct H as [pre [line [post [ex [w [E [R C]]]]]]].
  apply call_throws in C; [|eapply run_wellFormed; exact R].
  destruct C as [-> [G [P ->]]].
  destruct pre as [|name pre]; [discriminate|].
  cbn [run call] in R. unfold fileExaminer in R.
  destruct (truthy name) eqn:T; [|discriminate].
  pose proof (run_polygon_empty pre PolygonExaminer _ _
                ltac:(discriminate) R G) as Hp.
  subst pre. cbn [run] in R. inversion R; subst w.
  exists name, line, post. subst lines. auto.
Qed.

(** X11: whenever the script ends with status 1 it has written nothing to
    standard output, and standard error tells why: it is "No file
    specified"; or "File not found"; or it ends with the diagnostic of the
    line that stopped the parse followed by "Processing terminated"; or it
    is the runtime's report of the uncaught [TypeError], which happens
    exactly when the line after the name line is a coordinate pair.  The
    script ends with status 1 in each of these cases. *)
Theorem X11_script_failure_is_reported :
  forall (stringify : GjObj -> string) (existsSync : string -> bool)
         (linesOf : string -> list string) (uncaughtReport : list string)
         (argv2 : option string),
    let process := main stringify existsSync linesOf uncaughtReport argv2 in
    (status process = Exit 1 ->
     stdout process = []
     /\ (stderr process = ["No file specified"]
         \/ stderr process = ["File not found"]
         \/ (exists before diagnostic,
                stderr process
                = before ++ [diagnostic; "Processing terminated"]
                /\ (diagnostic = nullInput \/ diagnostic = notValid))
         \/ (exists path name line rest,
                argv2 = Some path
                /\ linesOf path = name :: line :: rest
                /\ pairOf line <> None
                /\ stderr process = uncaughtReport)))
    /\ (forall path name line rest,
           argv2 = Some path -> truthy path = true ->
           existsSync path = true ->
           linesOf path = name :: line :: rest ->
           truthy name = true -> pairOf line <> None ->
           process = mkProcess [] uncaughtReport (Exit 1)).
Proof.
  intros stringify existsSync linesOf report argv2. cbv zeta. split.
  - unfold main.
    destruct argv2 as [path|]; [|simpl; auto].
    destruct (truthy path); [|simpl; auto].
    destruct (existsSync path); [|simpl; auto].
    destruct (readLines (linesOf path)) as [w|w|w|w] eqn:R; simpl;
      try discriminate.
    + intros _. split; [reflexivity|]. right; right; left.
      apply eachLine_rejected_inv in R.
      destruct R as [pre [line [post [ex [v [_ [_ C]]]]]]].
      apply call_null in C.
      destruct C as [[_ [_ ->]]|[_ [_ [_ ->]]]]; simpl.
      * exists (console v), nullInput. rewrite <- app_assoc. auto.
      * exists (console v), notValid. rewrite <- app_assoc. auto.
    + intros _. split; [reflexivity|]. right; right; right.
      apply readLines_uncaught in R.
      destruct R as [name [line [rest [L [_ [P ->]]]]]].
      exists path, name, line, rest. auto.
  - intros path name line rest -> Tp Ex L Tn P.
    unfold main. rewrite Tp, Ex, L.
    destruct (pairOf line) as [pos|] eqn:Hp; [|now contradiction P].
    assert (R : readLines (name :: line :: rest)
                = Uncaught (setName initialWorld name)).
    { unfold readLines. cbn [eachLine call]. unfold fileExaminer. rewrite Tn.
      cbn [eachLine call].
      unfold polygonExaminer. rewrite (pairOf_some_not_END _ _ Hp).
      unfold bind at 1. rewrite (readCoordinatePair_some _ _ _ Hp).
      reflexivity. }
    rewrite R. reflexivity.
Qed.

Lemma X11_script_failure_is_reported_witness :
  (stdout (main (fun _ => EmptyString) (fun _ => true)
                (fun _ => ["boundary"; "1"; "1  0.0  0.0"; "END"; "END"])
                ["TypeError"] (Some "short.poly")) = []
   /\ (stderr (main (fun _ => EmptyString) (fun _ => true)
                    (fun _ => ["boundary"; "1"; "1  0.0  0.0"; "END"; "END"])
                    ["TypeError"] (Some "short.poly"))
       = ["No file specified"]
       \/ stderr (main (fun _ => EmptyString) (fun _ => true)
                       (fun _ => ["boundary"; "1"; "1  0.0  0.0"; "END"; "END"])
                       ["TypeError"] (Some "short.poly"))
          = ["File not found"]
       \/ (exists before diagnostic,
              stderr (main (fun _ => EmptyString) (fun _ => true)
                           (fun _ => ["boundary"; "1"; "1  0.0  0.0"; "END";
                                      "END"])
                           ["TypeError"] (Some "short.poly"))
              = before ++ [diagnostic; "Processing terminated"]
              /\ (diagnostic = nullInput \/ diagnostic = notValid))
       \/ (exists path name line rest,
              Some "short.poly" = Some path
              /\ ["boundary"; "1"; "1  0.0  0.0"; "END"; "END"]
                 = name :: line :: rest
              /\ pairOf line <> None
              /\ stderr (main (fun _ => EmptyString) (fun _ => true)
                              (fun _ => ["boundary"; "1"; "1  0.0  0.0"; "END";
                                         "END"])
                              ["TypeError"] (Some "short.poly"))
                 = ["TypeError"])))
  /\ main (fun _ => EmptyString) (fun _ => true)
          (fun _ => ["boundary"; "   0.1446763E+03   -0.3825659E+02"; "END"])
          ["TypeError: Cannot read properties of undefined"]
          (Some "headless.poly")
     = mkProcess [] ["TypeError: Cannot read properties of undefined"] (Exit 1).
Proof.
  split.
  { apply (proj1 (X11_script_failure_is_reported
                    (fun _ => EmptyString) (fun _ => true)
                    (fun _ => ["boundary"; "1"; "1  0.0  0.0"; "END"; "END"])
                    ["TypeError"] (Some "short.poly"))).
    vm_compute; reflexivity. }
  apply (proj2 (X11_script_failure_is_reported
                  (fun _ => EmptyString) (fun _ => true)
                  (fun _ => ["boundary";
                             "   0.1446763E+03   -0.3825659E+02"; "END"])
                  ["TypeError: Cannot read properties of undefined"]
                  (Some "headless.poly"))
           "headless.poly" "boundary" "   0.1446763E+03   -0.3825659E+02"
           ["END"]).
  - reflexivity.
  - reflexivity.
  - reflexivity.
  - reflexivity.
  - reflexivity.
  - vm_compute; discriminate.
Defined.

(** *** X12: a hole never starts a polygon *)



(** *** X13: a ring cut short *)



(** ** C5: one polygon per outer-ring group *)







(** *** C10: witness *)

Lemma C10_empty_line_opens_polygon_witness :
  (exists w',
      call EndExaminer EmptyString
        (mkWorld (mkGjObj (Polygon [unitTriangle]) (Some "boundary")) [])
      = Normal (Some PolygonExaminer) w'
      /\ geometry (gjObj w') = MultiPolygon [[unitTriangle]; [[]]])
  /\ (exists w',
         call EndExaminer EmptyString
           (mkWorld
              (mkGjObj (MultiPolygon [[unitTriangle]; [unitTriangle]])
                       (Some "boundary")) [])
         = Normal (Some PolygonExaminer) w'
         /\ geometry (gjObj w')
            = MultiPolygon ([[unitTriangle]; [unitTriangle]] ++ [[[]]])).
Proof.
  split.
  - apply (proj1 (proj2 (C10_empty_line_opens_polygon
                           (mkWorld (mkGjObj (Polygon [unitTriangle])
                                             (Some "boundary")) [])))
             [unitTriangle]).
    reflexivity.
  - apply (proj2 (proj2 (C10_empty_line_opens_polygon
                           (mkWorld
                              (mkGjObj
                                 (MultiPolygon [[unitTriangle]; [unitTriangle]])
                                 (Some "boundary")) [])))
             [[unitTriangle]; [unitTriangle]]).
    reflexivity.
Defined.
